(** * Acoustic feature extraction of [backend/app.py]

    A shallow embedding of the feature-extraction route of the Flask
    backend: [compute_basic_features], [compute_mfcc],
    [extract_praat_features] and the [/extract_features] handler.

    Modelling conventions.
    - Python [bytes] are [list byte]; a decoded [int16] is a [Z]; array
      sizes and loop indices are [nat].
    - [float64] values are modelled by the real numbers [R]; infinities and
      NaN are outside the model.  Sums, means, products and square roots
      are exact.  Rounding is kept where the code's result turns on it:
      [np.exp] and [np.log] are library functions, not the exact [exp] and
      [ln], and the length of [np.arange] is taken from a rounded
      quotient.  The pitch and formant queries, whose answer the code tests
      before use, return [option R], [None] standing for "undefined".
    - An exception is [Raise msg], carrying what [str(e)] would show; every
      handler of the source is a catch-all, so one constructor suffices.
    - [print] appends to a log of events.
    - scipy, numpy.fft, numpy's transcendental functions and parselmouth
      are not part of the repository: they are the fields of the record
      [Libs], each call of scipy, numpy.fft and parselmouth being free to
      raise. *)

From Stdlib.Strings Require Import Ascii String Byte.
From Stdlib Require Import Reals Lra Lia ZArith Bool Arith List.
From Stdlib Require DecimalString.
Import ListNotations.

Set Implicit Arguments.

Local Open Scope R_scope.

(* ------------------------------------------------------------------ *)
(** ** Exceptions and the console *)

Inductive exc (A : Type) : Type :=
| Ret (a : A)
| Raise (msg : string).

Arguments Ret {A} a.
Arguments Raise {A} msg%_string.

Definition exc_bind {A B : Type} (m : exc A) (k : A -> exc B) : exc B :=
  match m with
  | Ret a => k a
  | Raise e => Raise e
  end.

Declare Scope exc_scope.
Delimit Scope exc_scope with exc.
Notation "x <- m ;; k" := (exc_bind m (fun x => k))
  (at level 61, m at next level, right associativity) : exc_scope.
Notation "' p <- m ;; k" := (exc_bind m (fun p => k))
  (at level 61, p pattern, m at next level, right associativity) : exc_scope.

(** Division of two Python floats raises on a zero divisor. *)
Definition py_div (a b : R) : exc R :=
  if Req_dec_T b 0 then Raise "float division by zero" else Ret (a / b).

(** [min(a, b)] and [max(a, b)] of Python: the first argument wins a tie. *)
Definition py_min (a b : R) : R := if Rlt_dec b a then b else a.
Definition py_max (a b : R) : R := if Rlt_dec a b then b else a.

(* ------------------------------------------------------------------ *)
(** ** numpy on real arrays *)

Definition np_sum (l : list R) : R := fold_right Rplus 0 l.

Definition np_mean (l : list R) : R := np_sum l / INR (length l).

Definition np_square (l : list R) : list R := map (fun v => v * v) l.

Definition np_signbit (l : list R) : list bool :=
  map (fun v => if Rlt_dec v 0 then true else false) l.

(** [np.diff] on a boolean array is the exclusive or of neighbours. *)
Fixpoint np_diff (l : list bool) : list bool :=
  match l with
  | a :: (b :: _) as tl => xorb b a :: np_diff tl
  | _ => []
  end.

(** [np.sum(np.abs(b))] on a boolean array counts its [True] entries. *)
Definition np_count (l : list bool) : nat := length (filter (fun b => b) l).

Definition np_maximum (l : list R) (c : R) : list R := map (fun v => Rmax v c) l.

(** Elementwise product of two arrays of the same shape. *)
Fixpoint np_mul (a b : list R) : list R :=
  match a, b with
  | x :: a', y :: b' => x * y :: np_mul a' b'
  | _, _ => []
  end.

Definition np_min (l : list R) : R :=
  match l with
  | [] => 0
  | v :: l' => fold_left Rmin l' v
  end.

Definition np_max (l : list R) : R :=
  match l with
  | [] => 0
  | v :: l' => fold_left Rmax l' v
  end.

Definition np_std (l : list R) : R :=
  let m := np_mean l in sqrt (np_mean (np_square (map (fun v => v - m) l))).

Record complex : Type := { re : R; im : R }.

Definition np_abs (z : complex) : R := sqrt (re z * re z + im z * im z).

(** [magnitude[start:end]]. *)
Definition slice (A : Type) (l : list A) (start stop : nat) : list A :=
  firstn (stop - start) (skipn start l).

(** [np.frombuffer(b, dtype=np.int16)] on a little-endian host. *)
Definition int16_of (lo hi : byte) : Z :=
  let u := (Z.of_N (Byte.to_N lo) + 256 * Z.of_N (Byte.to_N hi))%Z in
  if (u <? 32768)%Z then u else (u - 65536)%Z.

Fixpoint int16_pairs (b : list byte) : list Z :=
  match b with
  | lo :: hi :: rest => int16_of lo hi :: int16_pairs rest
  | _ => []
  end.

Definition np_frombuffer (b : list byte) : exc (list Z) :=
  if Nat.odd (length b)
  then Raise "buffer size must be a multiple of element size"
  else Ret (int16_pairs b).

(* ------------------------------------------------------------------ *)
(** ** The external libraries *)

Record Libs : Type := {
  (** [scipy.signal.periodogram(x, fs, scaling="spectrum", window="hann")] *)
  periodogram : list R -> Z -> exc (list R * list R);
  (** [np.fft.fft] *)
  np_fft : list R -> exc (list complex);
  (** [np.exp] and [np.log] on float64: rounded, so neither is the exact
      function and [np_exp (np_log v)] need not be [v] *)
  np_exp : R -> R;
  np_log : R -> R;
  (** the relative error of the float64 quotient that [np.arange] takes
      its length from (see [float_div]) *)
  quotient_error : R -> R -> R;
  (** parselmouth objects *)
  Sound : Type;
  Pitch : Type;
  Formant : Type;
  PointProcess : Type;
  (** [parselmouth.Sound(samples, sampling_frequency)] and [sound.duration] *)
  new_Sound : list R -> Z -> exc Sound;
  duration : Sound -> R;
  (** [sound.to_pitch_ac(time_step, pitch_floor, pitch_ceiling)] *)
  to_pitch_ac : Sound -> R -> R -> R -> exc Pitch;
  pitch_bool : Pitch -> bool;
  pitch_get_value_at_time : Pitch -> R -> exc (option R);
  (** [sound.to_formant_burg(time_step, max_number_of_formants,
      maximum_formant)] *)
  to_formant_burg : Sound -> R -> R -> R -> exc Formant;
  formant_bool : Formant -> bool;
  formant_get_value_at_time : Formant -> nat -> R -> exc (option R);
  (** [praat.call(sound, "To PointProcess (periodic, cc)", lo, hi)] *)
  to_point_process : Sound -> R -> R -> exc PointProcess;
  point_process_bool : PointProcess -> bool;
  (** [praat.call(pp, "Get number of points")] *)
  get_number_of_points : PointProcess -> exc Z;
  (** [praat.call(pp, "Get jitter (local)", t0, t1, pmin, pmax, factor)] *)
  get_jitter_local : PointProcess -> R -> R -> R -> R -> R -> exc R;
  (** [praat.call([sound, pp], "Get shimmer (local)", t0, t1, pmin, pmax,
      factor, afactor)] *)
  get_shimmer_local :
    Sound -> PointProcess -> R -> R -> R -> R -> R -> R -> exc R
}.

(** The float64 quotient of [a] by the double nearest to the literal [b]:
    the exact quotient times [1 + e], where [e] gathers the rounding of
    the literal and of the division and so has magnitude at most [2^-51].
    Which [e] occurs is the arithmetic's business ([quotient_error], cut to
    that range). *)
Definition float_tolerance : R := / 2 ^ 51.

Definition float_div (L : Libs) (a b : R) : R :=
  a / b * (1 + Rmax (- float_tolerance)
                    (Rmin float_tolerance (quotient_error L a b))).

(** [np.arange(0, stop, step)]: the instants [k * step] for [k] below the
    ceiling of the float64 quotient of [stop] by [step]. *)
Definition np_arange (L : Libs) (stop step : R) : list R :=
  map (fun k => INR k * step)
      (seq 0 (Z.to_nat (Zceil (float_div L stop step)))).

(* ------------------------------------------------------------------ *)
(** ** [compute_basic_features] *)

Record BasicFeatures : Type := {
  rms : R;
  zcr : R;
  spectralCentroid : R;
  spectralFlatness : R
}.

Definition psd_floor : R := 1e-20.

Definition compute_basic_features (L : Libs) (samples : list R)
    (sample_rate : Z) : exc BasicFeatures :=
  (let x := samples in
   let size := length x in
   let rms := if (0 <? size)%nat then sqrt (np_mean (np_square x)) else 0 in
   let zero_crossings := np_count (np_diff (np_signbit x)) in
   zcr <- (if (1 <? size)%nat
           then py_div (INR zero_crossings) (INR (size - 1))
           else Ret 0) ;;
   if (size =? 0)%nat
   then Ret {| rms := 0; zcr := 0; spectralCentroid := 0;
               spectralFlatness := 0 |}
   else
     '(freqs, psd) <- periodogram L x sample_rate ;;
     let psd := np_maximum psd psd_floor in
     let centroid :=
       if Rlt_dec 0 (np_sum psd)
       then np_sum (np_mul freqs psd) / np_sum psd else 0 in
     let geom_mean := np_exp L (np_mean (map (np_log L) psd)) in
     let arith_mean := if (0 <? length psd)%nat then np_mean psd else 0 in
     flatness <- (if Rlt_dec 0 arith_mean
                  then py_div geom_mean arith_mean else Ret 0) ;;
     Ret {| rms := rms; zcr := zcr; spectralCentroid := centroid;
            spectralFlatness := flatness |})%exc.

(* ------------------------------------------------------------------ *)
(** ** [compute_mfcc] *)

(** The index band of coefficient [i] among [K], over an array of [M]
    magnitudes: [int((i * M) / K)] up to [int(((i + 1) * M) / K)].  The
    true division followed by [int] is the floor of the exact quotient as
    long as [i * M < 2^53]. *)
Definition band_start (K M i : nat) : nat := (i * M) / K.
Definition band_end (K M i : nat) : nat := ((i + 1) * M) / K.
Definition band_width (K M i : nat) : nat := band_end K M i - band_start K M i.

Definition band_coeff (magnitude : list R) (K i : nat) : R :=
  let start := band_start K (length magnitude) i in
  let stop := band_end K (length magnitude) i in
  if (start <? stop)%nat then np_mean (slice magnitude start stop) else 0.

Definition lower_half_magnitude (fft : list complex) : list R :=
  map np_abs (firstn (length fft / 2) fft).

Definition mfcc_try (L : Libs) (samples : list R) (num_coeffs : nat)
    : exc (list R) :=
  (fft <- np_fft L samples ;;
   let magnitude := lower_half_magnitude fft in
   Ret (map (band_coeff magnitude num_coeffs) (seq 0 num_coeffs)))%exc.

Definition compute_mfcc (L : Libs) (samples : list R) (sample_rate : Z)
    (num_coeffs : nat) : list R :=
  match mfcc_try L samples num_coeffs with
  | Ret mfccs => mfccs
  | Raise _ => repeat 0 num_coeffs
  end.

(* ------------------------------------------------------------------ *)
(** ** Computations that print *)

Record PraatFeatures : Type := {
  f0_mean : R;
  f0_range : R;
  jitter : R;
  shimmer : R;
  f1 : R;
  f2 : R;
  speech_rate : R
}.

Inductive Event : Type :=
| Printed (line : string)
| PrintedReport (basic : BasicFeatures) (mfcc : list R)
                (praat : PraatFeatures) (n_samples : nat)
| PrintedTraceback.

(** What was printed, and how the computation ended. *)
Definition py (A : Type) : Type := (list Event * exc A)%type.

Definition py_ret {A : Type} (a : A) : py A := ([], Ret a).

Definition py_bind {A B : Type} (m : py A) (k : A -> py B) : py B :=
  match m with
  | (out, Ret a) => let (out', r) := k a in (out ++ out', r)
  | (out, Raise e) => (out, Raise e)
  end.

Definition call {A : Type} (m : exc A) : py A := ([], m).

Definition print (e : Event) : py unit := ([e], Ret tt).

Definition try_except {A : Type} (m : py A) (handler : string -> py A)
    : py A :=
  match m with
  | (out, Ret a) => (out, Ret a)
  | (out, Raise e) => let (out', r) := handler e in (out ++ out', r)
  end.

Declare Scope py_scope.
Delimit Scope py_scope with py.
Notation "x <- m ;; k" := (py_bind m (fun x => k))
  (at level 61, m at next level, right associativity) : py_scope.
Notation "' p <- m ;; k" := (py_bind m (fun p => k))
  (at level 61, p pattern, m at next level, right associativity) : py_scope.
Notation "m ;;; k" := (py_bind m (fun _ => k))
  (at level 61, right associativity) : py_scope.

(* ------------------------------------------------------------------ *)
(** ** [extract_praat_features] *)

Section Praat.

Variable L : Libs.

(** [if f0 is not None and f0 > 0: values.append(f0)] *)
Definition append_if_positive (values : list R) (v : option R) : list R :=
  match v with
  | Some f => if Rlt_dec 0 f then values ++ [f] else values
  | None => values
  end.

(** The loop over [np.arange(0, duration, 0.01)] that fills [f0_values]. *)
Fixpoint f0_loop (pitch : Pitch L) (ts : list R) (f0_values : list R)
    : exc (list R) :=
  match ts with
  | [] => Ret f0_values
  | t :: ts' =>
      (f0 <- pitch_get_value_at_time L pitch t ;;
       f0_loop pitch ts' (append_if_positive f0_values f0))%exc
  end.

(** The loop that fills [f1_values] and [f2_values]. *)
Fixpoint formant_loop (formant : Formant L) (ts : list R)
    (f1_values f2_values : list R) : exc (list R * list R) :=
  match ts with
  | [] => Ret (f1_values, f2_values)
  | t :: ts' =>
      (f1 <- formant_get_value_at_time L formant 1 t ;;
       f2 <- formant_get_value_at_time L formant 2 t ;;
       formant_loop formant ts' (append_if_positive f1_values f1)
                    (append_if_positive f2_values f2))%exc
  end.

(** [f0_values] once the pitch object exists: nothing is collected from a
    falsy [pitch]. *)
Definition pitch_f0_values (pitch : Pitch L) (duration : R) : exc (list R) :=
  if pitch_bool L pitch
  then f0_loop pitch (np_arange L duration 0.01) []
  else Ret [].

Definition formant_values (formant : Formant L) (duration : R)
    : exc (list R * list R) :=
  if formant_bool L formant
  then formant_loop formant (np_arange L duration 0.01) [] []
  else Ret ([], []).

(** Pitch statistics: [(f0_mean, f0_range)]. *)
Definition f0_stats (f0_values : list R) : R * R :=
  if (0 <? length f0_values)%nat
  then
    let f0_mean := np_mean f0_values in
    let f0_std := np_std f0_values in
    let f0_min := np_min f0_values in
    let f0_max := np_max f0_values in
    (f0_mean, f0_max - f0_min)
  else (0, 0).

Definition mean_or_zero (values : list R) : R :=
  if (0 <? length values)%nat then np_mean values else 0.

(** The [try] block around the point process: [(jitter, shimmer)]. *)
Definition perturbation_try (sound : Sound L) (duration : R) : exc (R * R) :=
  (point_process <- to_point_process L sound 50 600 ;;
   if point_process_bool L point_process
   then
     n_pulses <- get_number_of_points L point_process ;;
     if (1 <? n_pulses)%Z
     then
       let jitter :=
         match get_jitter_local L point_process 0 duration 0.0001 0.02 1.3 with
         | Ret j => j * 100
         | Raise _ => 0
         end in
       let shimmer :=
         match get_shimmer_local L sound point_process
                 0 duration 0.0001 0.02 1.3 1.6 with
         | Ret s => s * 100
         | Raise _ => 0
         end in
       Ret (jitter, shimmer)
     else Ret (0, 0)
   else Ret (0, 0))%exc.

Definition perturbation (sound : Sound L) (duration : R) : py (R * R) :=
  try_except (call (perturbation_try sound duration))
    (fun e =>
       (print (Printed ("Warning: Could not extract jitter/shimmer: " ++ e)) ;;;
        py_ret (0, 0))%py).

(** The speech-rate heuristic on the number of voiced frames. *)
Definition estimate_speech_rate (voiced_frames : nat) (duration : R) : py R :=
  (if (0 <? voiced_frames)%nat
   then
     let voiced_duration := INR voiced_frames * 0.01 in
     let words_estimate := voiced_duration / 0.5 in
     speech_rate <- (if Rlt_dec 0 duration
                     then q <- call (py_div words_estimate duration) ;;
                          py_ret (q * 60)
                     else py_ret 0) ;;
     py_ret (py_max 80 (py_min 200 speech_rate))
   else py_ret 0)%py.

Definition praat_defaults : PraatFeatures :=
  {| f0_mean := 0; f0_range := 0; jitter := 0; shimmer := 0;
     f1 := 0; f2 := 0; speech_rate := 0 |}.

(** The voiced frames of a clip: what [f0_values] holds after the pitch
    loop, or the exception that stopped the extraction before. *)
Definition voiced_frames (samples : list R) (sample_rate : Z)
    : exc (list R) :=
  (sound <- new_Sound L samples sample_rate ;;
   pitch <- to_pitch_ac L sound 0.01 50 600 ;;
   pitch_f0_values pitch (duration L sound))%exc.

Definition praat_try (samples : list R) (sample_rate : Z)
    : py PraatFeatures :=
  (sound <- call (new_Sound L samples sample_rate) ;;
   let duration := duration L sound in
   pitch <- call (to_pitch_ac L sound 0.01 50 600) ;;
   f0_values <- call (pitch_f0_values pitch duration) ;;
   let '(f0_mean, f0_range) := f0_stats f0_values in
   formant <- call (to_formant_burg L sound 0.01 5 5500) ;;
   '(f1_values, f2_values) <- call (formant_values formant duration) ;;
   let f1_mean := mean_or_zero f1_values in
   let f2_mean := mean_or_zero f2_values in
   '(jitter, shimmer) <- perturbation sound duration ;;
   speech_rate <- estimate_speech_rate (length f0_values) duration ;;
   py_ret {| f0_mean := f0_mean; f0_range := f0_range;
             jitter := jitter; shimmer := shimmer;
             f1 := f1_mean; f2 := f2_mean;
             speech_rate := speech_rate |})%py.

Definition extract_praat_features (samples : list R) (sample_rate : Z)
    : py PraatFeatures :=
  try_except (praat_try samples sample_rate)
    (fun e =>
       (print (Printed ("Error in Praat extraction: " ++ e)) ;;;
        py_ret praat_defaults)%py).

(* ------------------------------------------------------------------ *)
(** ** The [/extract_features] route *)

(** The JSON object of a successful answer: the four keys of [basic], the
    key [mfcc] and the seven keys of [praat_features], copied one by one. *)
Record FeatureRecord : Type := {
  basic_part : BasicFeatures;
  mfcc : list R;
  praat_part : PraatFeatures
}.

(** A feature record (status 200) or [{"error": msg}] with its status. *)
Inductive Response : Type :=
| Features (r : FeatureRecord)
| Error (status : Z) (msg : string).

Definition header_size : nat := 44.

Definition decode_samples (raw : list Z) : list R :=
  map (fun v => IZR v / 32768) raw.

Definition extract_features_try (data : list byte) : py Response :=
  (let audio_data := skipn header_size data in
   raw <- call (np_frombuffer audio_data) ;;
   let samples := decode_samples raw in
   let sample_rate := 16000%Z in
   basic <- call (compute_basic_features L samples sample_rate) ;;
   let mfcc := compute_mfcc L samples sample_rate 13 in
   praat_features <- extract_praat_features samples sample_rate ;;
   print (PrintedReport basic mfcc praat_features (length samples)) ;;;
   py_ret (Features {| basic_part := basic; mfcc := mfcc;
                       praat_part := praat_features |}))%py.

(** [file] is [None] when the request has no ["file"] field. *)
Definition extract_features (file : option (list byte)) : py Response :=
  match file with
  | None => py_ret (Error 400 "file field missing")
  | Some data =>
      if (length data =? 0)%nat
      then py_ret (Error 400 "empty file")
      else
        try_except (extract_features_try data)
          (fun e =>
             (print (Printed ("Error in extract_features: " ++ e)) ;;;
              print PrintedTraceback ;;;
              py_ret (Error 500 e))%py)
  end.

End Praat.

(* ------------------------------------------------------------------ *)
(** ** What the libraries promise *)

Definition all_zero (x : list R) : Prop := Forall (fun v => v = 0) x.



(** [np.exp] never returns a negative number. *)
Definition exp_nonnegative (L : Libs) : Prop := forall y, 0 <= np_exp L y.

(* ------------------------------------------------------------------ *)
(** ** Example libraries

    Concrete libraries on which the statements below are exercised. *)

(** Bin [k] of the discrete Fourier transform, as numpy documents it. *)
Definition dft_bin (x : list R) (k : nat) : complex :=
  let angle (n : nat) := 2 * PI * INR k * INR n / INR (length x) in
  let indexed := combine (seq 0 (length x)) x in
  {| re := np_sum (map (fun p => snd p * cos (angle (fst p))) indexed);
     im := - np_sum (map (fun p => snd p * sin (angle (fst p))) indexed) |}.

Definition ideal_fft (x : list R) : exc (list complex) :=
  match x with
  | [] => Raise "Invalid number of FFT data points (0) specified."
  | _ => Ret (map (dft_bin x) (seq 0 (length x)))
  end.

(** The periodic Hann window of [N] points. *)
Definition hann (N : nat) : list R :=
  if (N =? 1)%nat then [1]
  else map (fun n => 0.5 - 0.5 * cos (2 * PI * INR n / INR N)) (seq 0 N).

(** The one-sided periodogram with constant detrending, a Hann window and
    the "spectrum" scaling. *)
Definition ideal_periodogram (x : list R) (fs : Z) : exc (list R * list R) :=
  let N := length x in
  let m := np_mean x in
  let w := hann N in
  let xw := np_mul w (map (fun v => v - m) x) in
  let scale := 1 / (np_sum w * np_sum w) in
  let sides (k : nat) : R :=
    if ((k =? 0) || (Nat.even N && (k =? N / 2)))%nat then 1 else 2 in
  let bins := seq 0 (N / 2 + 1) in
  Ret (map (fun k => INR k * IZR fs / INR N) bins,
       map (fun k => let X := dft_bin xw k in
                     (re X * re X + im X * im X) * scale * sides k) bins).

(** A stand-in for parselmouth: the sound is its samples and rate, every
    frame reports the pitch [f0] and no formant, and the pulse train holds
    [pulses] points.  The arithmetic is exact. *)
Definition example_libs
    (pgram : list R -> Z -> exc (list R * list R))
    (f0 : option R) (pulses : Z) : Libs :=
  {| periodogram := pgram;
     np_fft := ideal_fft;
     np_exp := exp;
     np_log := ln;
     quotient_error := fun _ _ => 0;
     Sound := (list R * Z)%type;
     Pitch := unit;
     Formant := unit;
     PointProcess := unit;
     new_Sound := fun samples fs => Ret (samples, fs);
     duration := fun s => INR (length (fst s)) / IZR (snd s);
     to_pitch_ac := fun _ _ _ _ => Ret tt;
     pitch_bool := fun _ => true;
     pitch_get_value_at_time := fun _ _ => Ret f0;
     to_formant_burg := fun _ _ _ _ => Ret tt;
     formant_bool := fun _ => true;
     formant_get_value_at_time := fun _ _ _ => Ret None;
     to_point_process := fun _ _ _ => Ret tt;
     point_process_bool := fun _ => true;
     get_number_of_points := fun _ => Ret pulses;
     get_jitter_local := fun _ _ _ _ _ _ => Ret 0.01;
     get_shimmer_local := fun _ _ _ _ _ _ _ _ => Ret 0.05 |}.

(** A clip without voicing. *)
Definition quiet_libs : Libs := example_libs ideal_periodogram None 0.

(** A voice at 120 Hz in every frame. *)
Definition voiced_libs : Libs := example_libs ideal_periodogram (Some 120) 3.


(** A canonical 44-byte header (its content is never inspected). *)
Definition wav_header : list byte := repeat x00 44.

(** A stand-in for parselmouth in which single calls can be made to fail:
    every frame reports the pitch [f0], the formant analysis, the pulse
    train and the two perturbation queries end as scripted. *)
Definition scripted_libs (f0 : option R) (formant_result : exc unit)
    (point_process_result : exc unit) (pulses : Z)
    (jitter_result shimmer_result : exc R) : Libs :=
  {| periodogram := ideal_periodogram;
     np_fft := ideal_fft;
     np_exp := exp;
     np_log := ln;
     quotient_error := fun _ _ => 0;
     Sound := (list R * Z)%type;
     Pitch := unit;
     Formant := unit;
     PointProcess := unit;
     new_Sound := fun samples fs => Ret (samples, fs);
     duration := fun s => INR (length (fst s)) / IZR (snd s);
     to_pitch_ac := fun _ _ _ _ => Ret tt;
     pitch_bool := fun _ => true;
     pitch_get_value_at_time := fun _ _ => Ret f0;
     to_formant_burg := fun _ _ _ _ => formant_result;
     formant_bool := fun _ => true;
     formant_get_value_at_time := fun _ _ _ => Ret None;
     to_point_process := fun _ _ _ => point_process_result;
     point_process_bool := fun _ => true;
     get_number_of_points := fun _ => Ret pulses;
     get_jitter_local := fun _ _ _ _ _ _ => jitter_result;
     get_shimmer_local := fun _ _ _ _ _ _ _ _ => shimmer_result |}.

(** float64 at the floor of the power bins: [np.log(1e-20)] prints as
    -46.051701859880914 and [np.exp] of that as 9.999999999999992e-21.
    The stand-in below has these two values and is exact elsewhere. *)
Definition float64_log (v : R) : R :=
  if Req_dec_T v psd_floor then -46.051701859880914 else ln v.

Definition float64_exp (y : R) : R :=
  if Req_dec_T y (-46.051701859880914) then 9.999999999999992e-21 else exp y.

(** The quiet library with that arithmetic; the quotient behind
    [np.arange] is rounded upwards by [2^-53]. *)
Definition float64_libs : Libs :=
  {| periodogram := ideal_periodogram;
     np_fft := ideal_fft;
     np_exp := float64_exp;
     np_log := float64_log;
     quotient_error := fun _ _ => / 2 ^ 53;
     Sound := (list R * Z)%type;
     Pitch := unit;
     Formant := unit;
     PointProcess := unit;
     new_Sound := fun samples fs => Ret (samples, fs);
     duration := fun s => INR (length (fst s)) / IZR (snd s);
     to_pitch_ac := fun _ _ _ _ => Ret tt;
     pitch_bool := fun _ => true;
     pitch_get_value_at_time := fun _ _ => Ret None;
     to_formant_burg := fun _ _ _ _ => Ret tt;
     formant_bool := fun _ => true;
     formant_get_value_at_time := fun _ _ _ => Ret None;
     to_point_process := fun _ _ _ => Ret tt;
     point_process_bool := fun _ => true;
     get_number_of_points := fun _ => Ret 0%Z;
     get_jitter_local := fun _ _ _ _ _ _ => Ret 0.01;
     get_shimmer_local := fun _ _ _ _ _ _ _ _ => Ret 0.05 |}.

(** A clip without voicing whose pulse train nevertheless holds points. *)
Definition pulsed_unvoiced_libs : Libs := example_libs ideal_periodogram None 3.

(* ------------------------------------------------------------------ *)
(** ** The CORS origins of the application

    Python strings are modelled by [string], the sequences of code points
    below 256. *)

(** [ch.isspace()] on a code point below 256. *)
Definition is_space (c : Ascii.ascii) : bool :=
  let n := Ascii.nat_of_ascii c in
  ((9 <=? n) && (n <=? 13) || (28 <=? n) && (n <=? 32)
   || (n =? 133) || (n =? 160))%nat.

Fixpoint lstrip (s : string) : string :=
  match s with
  | EmptyString => EmptyString
  | String c s' => if is_space c then lstrip s' else s
  end.

Fixpoint rstrip (s : string) : string :=
  match s with
  | EmptyString => EmptyString
  | String c s' =>
      match rstrip s' with
      | EmptyString => if is_space c then EmptyString else String c EmptyString
      | r => String c r
      end
  end.

(** [s.strip()] *)
Definition strip (s : string) : string := rstrip (lstrip s).

(** [s.split(sep)] for a one-character separator. *)
Fixpoint split (sep : Ascii.ascii) (s : string) : list string :=
  match s with
  | EmptyString => [EmptyString]
  | String c s' =>
      if Ascii.eqb c sep then EmptyString :: split sep s'
      else match split sep s' with
           | part :: parts => String c part :: parts
           | [] => [String c EmptyString]
           end
  end.

(** The value handed to [CORS(app, origins=...)]: the string ["*"] itself,
    or the list of the stripped comma-separated parts of the environment
    variable [ALLOWED_ORIGINS] ([env] is [None] when it is not set). *)
Definition allowed_origins (env : option string) : string + list string :=
  let allowed_origins :=
    match env with Some v => v | None => "*"%string end in
  if negb (String.eqb allowed_origins "*")
  then inr (map strip (split ","%char allowed_origins))
  else inl allowed_origins.

(** Occurrences of a character, and the two ends of a string. *)
Fixpoint count_char (c : Ascii.ascii) (s : string) : nat :=
  match s with
  | EmptyString => 0
  | String a s' => (if Ascii.eqb a c then 1 else 0) + count_char c s'
  end.

Definition first_char (s : string) : option Ascii.ascii :=
  match s with
  | EmptyString => None
  | String c _ => Some c
  end.

Fixpoint last_char (s : string) : option Ascii.ascii :=
  match s with
  | EmptyString => None
  | String c EmptyString => Some c
  | String _ s' => last_char s'
  end.

Fixpoint space_free (s : string) : bool :=
  match s with
  | EmptyString => true
  | String c s' => negb (is_space c) && space_free s'
  end.

Definition is_space_opt (c : option Ascii.ascii) : bool :=
  match c with
  | Some a => is_space a
  | None => false
  end.

Fixpoint all_space (s : string) : bool :=
  match s with
  | EmptyString => true
  | String c s' => is_space c && all_space s'
  end.

(** [origin] is [part] without its leading and trailing whitespace: what
    is cut off at either end is whitespace only, and what is left neither
    begins nor ends with a whitespace character. *)
Definition stripped_of (part origin : string) : Prop :=
  exists before after : string,
    part = (before ++ origin ++ after)%string /\
    all_space before = true /\ all_space after = true /\
    is_space_opt (first_char origin) = false /\
    is_space_opt (last_char origin) = false.

(* ------------------------------------------------------------------ *)
(** ** The Stream Chat routes

    [request.get_json()] yields a Python value decoded from JSON.  A float
    is represented by what the routes can observe of it: whether it is
    non-zero and the text [str()] gives. *)

Local Open Scope string_scope.

#[warnings="-register-all"]
Inductive pyval : Type :=
| PNone
| PBool (b : bool)
| PInt (z : Z)
| PFloat (nonzero : bool) (text : string)
| PStr (s : string)
| PList (l : list pyval)
| PDict (d : list (string * pyval)).

(** The parts of the Python runtime the routes rely on without fixing
    them: the text of a list or dict, and the texts of three errors. *)
Record PyRuntime : Type := {
  py_repr : pyval -> string;
  msg_not_iterable : pyval -> string;
  msg_bad_index : pyval -> string;
  msg_unbound : string
}.

(** [bool(v)] *)
Definition truthy (v : pyval) : bool :=
  match v with
  | PNone => false
  | PBool b => b
  | PInt z => negb (z =? 0)%Z
  | PFloat nonzero _ => nonzero
  | PStr s => negb (String.eqb s "")
  | PList l => match l with [] => false | _ :: _ => true end
  | PDict d => match d with [] => false | _ :: _ => true end
  end.

Definition type_name (v : pyval) : string :=
  match v with
  | PNone => "NoneType"
  | PBool _ => "bool"
  | PInt _ => "int"
  | PFloat _ _ => "float"
  | PStr _ => "str"
  | PList _ => "list"
  | PDict _ => "dict"
  end.

(** [v == s] for a string [s]. *)
Definition py_eq_str (v : pyval) (s : string) : bool :=
  match v with
  | PStr t => String.eqb t s
  | _ => false
  end.

(** [str(v)], as an f-string formats a value. *)
Definition py_str (R : PyRuntime) (v : pyval) : string :=
  match v with
  | PNone => "None"
  | PBool true => "True"
  | PBool false => "False"
  | PInt z => DecimalString.NilZero.string_of_int (Z.to_int z)
  | PFloat _ text => text
  | PStr s => s
  | PList _ | PDict _ => py_repr R v
  end.

Fixpoint dict_get (key : string) (d : list (string * pyval)) : option pyval :=
  match d with
  | [] => None
  | (k, v) :: d' => if String.eqb k key then Some v else dict_get key d'
  end.

(** [needle in hay] on strings. *)
Fixpoint contains (needle hay : string) : bool :=
  String.prefix needle hay ||
  match hay with
  | EmptyString => false
  | String _ hay' => contains needle hay'
  end.

(** [s.lower()] on code points below 256. *)
Definition lower_char (c : Ascii.ascii) : Ascii.ascii :=
  let n := Ascii.nat_of_ascii c in
  if ((65 <=? n) && (n <=? 90) || (192 <=? n) && (n <=? 214)
      || (216 <=? n) && (n <=? 222))%nat
  then Ascii.ascii_of_nat (n + 32) else c.

Fixpoint lower (s : string) : string :=
  match s with
  | EmptyString => EmptyString
  | String c s' => String (lower_char c) (lower s')
  end.

(** [key in data] *)
Definition py_in (R : PyRuntime) (key : string) (data : pyval) : exc bool :=
  match data with
  | PDict d => Ret (match dict_get key d with Some _ => true | None => false end)
  | PList l => Ret (existsb (fun v => py_eq_str v key) l)
  | PStr s => Ret (contains key s)
  | _ => Raise (msg_not_iterable R data)
  end.

(** [data[key]] for a string [key] *)
Definition py_index (R : PyRuntime) (data : pyval) (key : string)
    : exc pyval :=
  match data with
  | PDict d =>
      match dict_get key d with
      | Some v => Ret v
      | None => Raise ("'" ++ key ++ "'")
      end
  | _ => Raise (msg_bad_index R data)
  end.

(** [data.get(key, default)] *)
Definition py_get (data : pyval) (key : string) (default : pyval)
    : exc pyval :=
  match data with
  | PDict d =>
      Ret (match dict_get key d with Some v => v | None => default end)
  | _ => Raise ("'" ++ type_name data ++ "' object has no attribute 'get'")
  end.

(** The calls a route makes to the Stream client. *)
Inductive Call : Type :=
| UpdateUser (user : list (string * pyval))
| CreateToken (user_id : pyval)
| Channel (channel_type channel_id : string) (data : list (string * pyval))
| ChannelCreate (channel_type channel_id : string)
                (data : list (string * pyval)) (user_id : pyval).

(** The Stream service: how it answers a call, given the calls made
    before. *)
Definition StreamClient : Type := list Call -> Call -> exc pyval.

(** A route runs on the calls made so far and extends them. *)
Definition sc (A : Type) : Type := list Call -> list Call * exc A.

Definition sc_ret {A : Type} (a : A) : sc A := fun h => (h, Ret a).

Definition sc_bind {A B : Type} (m : sc A) (k : A -> sc B) : sc B :=
  fun h =>
    match m h with
    | (h', Ret a) => k a h'
    | (h', Raise e) => (h', Raise e)
    end.

Definition sc_lift {A : Type} (m : exc A) : sc A := fun h => (h, m).

Definition sc_call (S : StreamClient) (c : Call) : sc pyval :=
  fun h => ((h ++ [c])%list, S h c).

Definition sc_try {A : Type} (m : sc A) (handler : string -> sc A) : sc A :=
  fun h =>
    match m h with
    | (h', Ret a) => (h', Ret a)
    | (h', Raise e) => handler e h'
    end.

Declare Scope sc_scope.
Delimit Scope sc_scope with sc.
Notation "x <- m ;; k" := (sc_bind m (fun x => k))
  (at level 61, m at next level, right associativity) : sc_scope.
Notation "m ;;; k" := (sc_bind m (fun _ => k))
  (at level 61, right associativity) : sc_scope.

(** [jsonify(body), status] *)
Inductive JsonResponse : Type :=
| Json (status : Z) (body : list (string * pyval)).

Section Chat.

Variable R : PyRuntime.
Variable S : StreamClient.

(** [request_json] is what [request.get_json()] does: return a value or
    raise. *)
Definition generate_stream_token (request_json : exc pyval)
    : sc JsonResponse :=
  sc_try
    (data <- sc_lift request_json ;;
     missing <- (if negb (truthy data) then sc_ret true
                 else present <- sc_lift (py_in R "userId" data) ;;
                      sc_ret (negb present)) ;;
     if (missing : bool)
     then sc_ret (Json 400 [("error", PStr "userId is required")])
     else
       userId <- sc_lift (py_index R data "userId") ;;
       userName <- sc_lift (py_get data "userName"
                              (PStr ("User " ++ py_str R userId))) ;;
       let role := if py_eq_str userId "9999" then "admin" else "user" in
       sc_call S (UpdateUser [("id", userId); ("name", userName);
                              ("role", PStr role)]) ;;;
       token <- sc_call S (CreateToken userId) ;;
       sc_ret (Json 200 [("token", token); ("userId", userId);
                         ("userName", userName)]))%sc
    (fun e => sc_ret (Json 500 [("error", PStr e)])).

Definition channel_id_of (teacher_id student_id : pyval) : string :=
  "teacher-" ++ py_str R teacher_id ++ "-student-" ++ py_str R student_id.

Definition create_channel_try (data : pyval) : sc JsonResponse :=
  (if negb (truthy data)
   then sc_ret (Json 400 [("error", PStr "Request body required")])
   else
     teacher_id <- sc_lift (py_get data "teacherId" PNone) ;;
     student_id <- sc_lift (py_get data "studentId" PNone) ;;
     if negb (truthy teacher_id) || negb (truthy student_id)
     then sc_ret (Json 400 [("error",
                             PStr "teacherId and studentId are required")])
     else
       let channel_id := channel_id_of teacher_id student_id in
       sc_call S (UpdateUser [("id", teacher_id);
                              ("name", PStr ("Teacher " ++ py_str R teacher_id));
                              ("role", PStr "admin")]) ;;;
       sc_call S (UpdateUser [("id", student_id);
                              ("name", PStr ("Student " ++ py_str R student_id))]) ;;;
       let channel_data := [("members", PList [teacher_id; student_id]);
                            ("created_by_id", teacher_id)] in
       sc_call S (Channel "messaging" channel_id channel_data) ;;;
       sc_call S (ChannelCreate "messaging" channel_id channel_data
                    teacher_id) ;;;
       sc_ret (Json 200 [("channelId", PStr channel_id);
                         ("success", PBool true)]))%sc.

(** The [except] block; [data] is [None] while the variable is unbound. *)
Definition create_channel_except (data : option pyval) (e : string)
    : sc JsonResponse :=
  (if contains "already exists" (lower e)
   then
     match data with
     | None => sc_lift (Raise (msg_unbound R))
     | Some data =>
         teacher_id <- sc_lift (py_get data "teacherId" PNone) ;;
         student_id <- sc_lift (py_get data "studentId" PNone) ;;
         sc_ret (Json 200 [("channelId",
                            PStr (channel_id_of teacher_id student_id));
                           ("success", PBool true);
                           ("existed", PBool true)])
     end
   else sc_ret (Json 500 [("error", PStr e)]))%sc.

(** A [Raise] in the result is an exception that leaves the view. *)
Definition create_stream_channel (request_json : exc pyval)
    : sc JsonResponse :=
  match request_json with
  | Raise e => create_channel_except None e
  | Ret data =>
      sc_try (create_channel_try data) (create_channel_except (Some data))
  end.

(** [/health] *)
Definition health : JsonResponse := Json 200 [("status", PStr "ok")].

End Chat.

(** The Stream calls of [create_stream_channel] in the order of the source
    text, and the two bodies it answers 200 with. *)
Definition channel_calls (R : PyRuntime) (teacher_id student_id : pyval)
    : list Call :=
  let channel_id := channel_id_of R teacher_id student_id in
  let channel_data := [("members", PList [teacher_id; student_id]);
                       ("created_by_id", teacher_id)] in
  [UpdateUser [("id", teacher_id);
               ("name", PStr ("Teacher " ++ py_str R teacher_id));
               ("role", PStr "admin")];
   UpdateUser [("id", student_id);
               ("name", PStr ("Student " ++ py_str R student_id))];
   Channel "messaging" channel_id channel_data;
   ChannelCreate "messaging" channel_id channel_data teacher_id].

Definition channel_created (R : PyRuntime) (teacher_id student_id : pyval)
    : JsonResponse :=
  Json 200 [("channelId", PStr (channel_id_of R teacher_id student_id));
            ("success", PBool true)].

Definition channel_existed (R : PyRuntime) (teacher_id student_id : pyval)
    : JsonResponse :=
  Json 200 [("channelId", PStr (channel_id_of R teacher_id student_id));
            ("success", PBool true); ("existed", PBool true)].

(** [d.get(key)] on a dict *)
Definition dict_get_or_none (key : string) (d : list (string * pyval))
    : pyval :=
  match dict_get key d with Some v => v | None => PNone end.

Definition is_channel_create (c : Call) : bool :=
  match c with ChannelCreate _ _ _ _ => true | _ => false end.

(** Making the given calls one after the other until one raises. *)
Fixpoint run_calls {A : Type} (S : StreamClient) (calls : list Call)
    (result : A) : sc A :=
  fun h =>
    match calls with
    | [] => (h, Ret result)
    | c :: rest =>
        match S h c with
        | Ret _ => run_calls S rest result (h ++ [c])%list
        | Raise e => ((h ++ [c])%list, Raise e)
        end
    end.

(** An example runtime and two example services: one that accepts every
    call, and one that answers a channel creation with the given error. *)
Definition example_runtime : PyRuntime :=
  {| py_repr := fun _ => "[...]";
     msg_not_iterable := fun v =>
       "argument of type '" ++ type_name v ++ "' is not iterable";
     msg_bad_index := fun v =>
       "'" ++ type_name v ++ "' indices must be integers";
     msg_unbound :=
       "cannot access local variable 'data' where it is not associated with a value"
  |}.

Definition accepting_stream : StreamClient :=
  fun _ c =>
    match c with
    | CreateToken _ => Ret (PStr "jwt")
    | _ => Ret PNone
    end.

Definition refusing_stream (e : string) : StreamClient :=
  fun _ c =>
    match c with
    | ChannelCreate _ _ _ _ => Raise e
    | CreateToken _ => Ret (PStr "jwt")
    | _ => Ret PNone
    end.

Local Close Scope string_scope.

(* ------------------------------------------------------------------ *)
(** * Properties *)

(** ** Index bands of the cepstral approximator *)

Lemma band_start_0 (K M : nat) : band_start K M 0 = 0%nat.
Proof. unfold band_start. now rewrite Nat.mul_0_l, Nat.Div0.div_0_l. Qed.

Lemma band_end_last (K M : nat) :
  K <> 0%nat -> band_end K M (K - 1) = M.
Proof.
  intros HK. unfold band_end.
  replace (K - 1 + 1)%nat with K by lia.
  rewrite Nat.mul_comm. now apply Nat.div_mul.
Qed.

Lemma band_end_next (K M i : nat) : band_end K M i = band_start K M (S i).
Proof. unfold band_end, band_start. now rewrite Nat.add_1_r. Qed.

Lemma band_start_le_end (K M i : nat) :
  (band_start K M i <= band_end K M i)%nat.
Proof.
  unfold band_start, band_end. apply Nat.Div0.div_le_mono. nia.
Qed.

Lemma band_width_floor_or_ceil (K M i : nat) :
  K <> 0%nat ->
  band_width K M i = (M / K)%nat \/ band_width K M i = (M / K + 1)%nat.
Proof.
  intros HK. unfold band_width, band_start, band_end.
  replace ((i + 1) * M)%nat with (i * M + M)%nat by lia.
  pose proof (Nat.div_mod (i * M) K HK) as Ha.
  pose proof (Nat.div_mod M K HK) as Hm.
  pose proof (Nat.mod_upper_bound (i * M) K HK) as Hra.
  pose proof (Nat.mod_upper_bound M K HK) as Hrm.
  set (qa := (i * M / K)%nat) in *. set (ra := ((i * M) mod K)%nat) in *.
  set (qm := (M / K)%nat) in *. set (rm := (M mod K)%nat) in *.
  destruct (Nat.lt_ge_cases (ra + rm) K) as [Hlt | Hge].
  - left.
    assert (E : ((i * M + M) / K = qa + qm)%nat).
    { symmetry. apply (Nat.div_unique _ _ _ (ra + rm)%nat); [exact Hlt | nia]. }
    lia.
  - right.
    assert (E : ((i * M + M) / K = qa + qm + 1)%nat).
    { symmetry. apply (Nat.div_unique _ _ _ (ra + rm - K)%nat); [lia | nia]. }
    lia.
Qed.

Lemma band_width_divisible (K M i : nat) :
  K <> 0%nat -> (M mod K = 0)%nat -> band_width K M i = (M / K)%nat.
Proof.
  intros HK Hdiv. unfold band_width, band_start, band_end.
  pose proof (Nat.div_mod M K HK) as Hm. rewrite Hdiv, Nat.add_0_r in Hm.
  set (q := (M / K)%nat) in *.
  rewrite Hm.
  replace ((i + 1) * (K * q))%nat with (((i + 1) * q) * K)%nat by lia.
  replace (i * (K * q))%nat with ((i * q) * K)%nat by lia.
  rewrite !Nat.div_mul by exact HK. lia.
Qed.

Lemma lower_half_length (fft : list complex) :
  length (lower_half_magnitude fft) = (length fft / 2)%nat.
Proof.
  unfold lower_half_magnitude. rewrite length_map, length_firstn.
  apply Nat.min_l. apply Nat.Div0.div_le_upper_bound. lia.
Qed.

Lemma slice_length (A : Type) (l : list A) (start stop : nat) :
  (stop <= length l)%nat -> length (slice l start stop) = (stop - start)%nat.
Proof.
  intros H. unfold slice. rewrite length_firstn, length_skipn. lia.
Qed.

Lemma band_end_le (K M i : nat) :
  K <> 0%nat -> (i < K)%nat -> (band_end K M i <= M)%nat.
Proof.
  intros HK Hi. unfold band_end.
  apply Nat.Div0.div_le_upper_bound. nia.
Qed.

Lemma compute_mfcc_unfold (L : Libs) (samples : list R) (sr : Z) (K : nat) :
  compute_mfcc L samples sr K =
  match np_fft L samples with
  | Ret fft => map (band_coeff (lower_half_magnitude fft) K) (seq 0 K)
  | Raise _ => repeat 0 K
  end.
Proof.
  unfold compute_mfcc, mfcc_try. now destruct (np_fft L samples).
Qed.

Lemma compute_mfcc_length (L : Libs) (samples : list R) (sr : Z) (K : nat) :
  length (compute_mfcc L samples sr K) = K.
Proof.
  rewrite compute_mfcc_unfold. destruct (np_fft L samples).
  - now rewrite length_map, length_seq.
  - apply repeat_length.
Qed.

(** ** The cepstral approximator *)


(** C5, as the code has it: the 13 bands are contiguous and cover the
    lower-half magnitude array, band [i] running from [i*M/13] to
    [(i+1)*M/13] (rounded down); their widths are [M/13] or [M/13 + 1], and
    all equal when 13 divides [M]; coefficient [i] is the arithmetic mean
    of the magnitudes of band [i], or 0 for an empty band. *)
Theorem compute_mfcc_bands (L : Libs) (samples : list R) (sr : Z)
    (fft : list complex) :
  np_fft L samples = Ret fft ->
  let magnitude := lower_half_magnitude fft in
  let M := length magnitude in
  M = (length fft / 2)%nat /\
  band_start 13 M 0 = 0%nat /\
  band_end 13 M 12 = M /\
  (forall i, band_end 13 M i = band_start 13 M (S i)) /\
  (forall i, (i < 13)%nat ->
     (band_start 13 M i <= band_end 13 M i <= M)%nat /\
     (band_width 13 M i = (M / 13)%nat \/
      band_width 13 M i = (M / 13 + 1)%nat) /\
     length (slice magnitude (band_start 13 M i) (band_end 13 M i)) =
       band_width 13 M i /\
     nth i (compute_mfcc L samples sr 13) 0 =
       if (band_width 13 M i =? 0)%nat then 0
       else np_sum (slice magnitude (band_start 13 M i) (band_end 13 M i))
            / INR (band_width 13 M i)) /\
  ((M mod 13 = 0)%nat ->
     forall i j, band_width 13 M i = band_width 13 M j).
Proof.
  intros Hfft magnitude M.
  assert (H13 : 13%nat <> 0%nat) by discriminate.
  split; [apply lower_half_length |].
  split; [apply band_start_0 |].
  split; [exact (band_end_last M H13) |].
  split; [intros i; apply band_end_next |].
  split.
  - intros i Hi.
    pose proof (band_start_le_end 13 M i) as Hle.
    pose proof (band_end_le M H13 Hi) as Hend.
    assert (Hlen : length (slice magnitude (band_start 13 M i)
                                 (band_end 13 M i)) = band_width 13 M i).
    { unfold band_width. apply slice_length. exact Hend. }
    split; [lia |]. split; [now apply band_width_floor_or_ceil |].
    split; [exact Hlen |].
    rewrite compute_mfcc_unfold, Hfft.
    rewrite (nth_indep _ 0 (band_coeff magnitude 13 0))
      by (now rewrite length_map, length_seq).
    rewrite (map_nth (band_coeff magnitude 13)), seq_nth by exact Hi.
    cbn [Nat.add]. unfold band_coeff. fold M.
    unfold band_width in *.
    destruct (Nat.ltb_spec (band_start 13 M i) (band_end 13 M i)) as [Hlt | Hge].
    + destruct (Nat.eqb_spec (band_end 13 M i - band_start 13 M i) 0) as [E | _];
        [lia |].
      unfold np_mean. now rewrite Hlen.
    + destruct (Nat.eqb_spec (band_end 13 M i - band_start 13 M i) 0) as [_ | N];
        [reflexivity | lia].
  - intros Hdiv i j. now rewrite !band_width_divisible.
Qed.

Lemma compute_mfcc_bands_witness :
  exists fft,
    np_fft quiet_libs (repeat 0 28) = Ret fft /\
    let magnitude := lower_half_magnitude fft in
    let M := length magnitude in
    M = (length fft / 2)%nat /\
    band_start 13 M 0 = 0%nat /\
    band_end 13 M 12 = M /\
    (forall i, band_end 13 M i = band_start 13 M (S i)) /\
    (forall i, (i < 13)%nat ->
       (band_start 13 M i <= band_end 13 M i <= M)%nat /\
       (band_width 13 M i = (M / 13)%nat \/
        band_width 13 M i = (M / 13 + 1)%nat) /\
       length (slice magnitude (band_start 13 M i) (band_end 13 M i)) =
         band_width 13 M i /\
       nth i (compute_mfcc quiet_libs (repeat 0 28) 16000 13) 0 =
         if (band_width 13 M i =? 0)%nat then 0
         else np_sum (slice magnitude (band_start 13 M i) (band_end 13 M i))
              / INR (band_width 13 M i)) /\
    ((M mod 13 = 0)%nat ->
       forall i j, band_width 13 M i = band_width 13 M j).
Proof.
  eexists. split; [reflexivity |].
  apply (@compute_mfcc_bands quiet_libs (repeat 0 28) 16000).
  reflexivity.
Defined.

(** C5 as stated fails: a clip of 28 samples has 14 lower-half magnitudes,
    of which band 0 takes one and band 12 takes two. *)
Lemma bands_not_equal_width :
  exists fft,
    np_fft quiet_libs (repeat 0 28) = Ret fft /\
    length (lower_half_magnitude fft) = 14%nat /\
    band_width 13 14 0 = 1%nat /\
    band_width 13 14 12 = 2%nat /\
    band_width 13 14 0 <> band_width 13 14 12.
Proof.
  eexists. split; [reflexivity |].
  split; [now rewrite lower_half_length, length_map, length_seq |].
  repeat split; discriminate.
Qed.

(** ** The route *)

Lemma extract_praat_features_returns (L : Libs) (samples : list R) (sr : Z) :
  exists out r, extract_praat_features L samples sr = (out, Ret r).
Proof.
  unfold extract_praat_features, try_except.
  destruct (praat_try L samples sr) as [out [r | e]]; cbn; eauto.
Qed.

(** The three ways a non-empty upload can end. *)
Lemma extract_features_cases (L : Libs) (data : list byte) :
  data <> [] ->
  match np_frombuffer (skipn header_size data) with
  | Raise e => exists out, extract_features L (Some data) = (out, Ret (Error 500 e))
  | Ret raw =>
      let samples := decode_samples raw in
      match compute_basic_features L samples 16000 with
      | Raise e =>
          exists out, extract_features L (Some data) = (out, Ret (Error 500 e))
      | Ret basic =>
          exists out out' praat,
            extract_praat_features L samples 16000 = (out', Ret praat) /\
            extract_features L (Some data) =
            (out, Ret (Features {| basic_part := basic;
                                   mfcc := compute_mfcc L samples 16000 13;
                                   praat_part := praat |}))
      end
  end.
Proof.
  intros Hne. unfold extract_features.
  destruct data as [| b data']; [congruence |]. cbn [length Nat.eqb].
  unfold extract_features_try. cbv zeta.
  destruct (np_frombuffer (skipn header_size (b :: data'))) as [raw | e];
    [| cbn; eauto].
  cbn [call py_bind].
  destruct (compute_basic_features L (decode_samples raw) 16000) as [basic | e];
    [| cbn; eauto].
  destruct (extract_praat_features_returns L (decode_samples raw) 16000)
    as (out' & praat & Hp).
  exists (out' ++ [PrintedReport basic
                     (compute_mfcc L (decode_samples raw) 16000 13) praat
                     (length (decode_samples raw))]), out', praat.
  split; [exact Hp |].
  rewrite Hp. cbn. reflexivity.
Qed.

Lemma skipn_short (A : Type) (n : nat) (l : list A) :
  (length l <= n)%nat -> skipn n l = [].
Proof.
  revert l. induction n as [| n IH]; intros [| a l] H; cbn in *;
    try reflexivity; try lia.
  apply IH. lia.
Qed.

Lemma compute_basic_features_empty (L : Libs) (sr : Z) :
  compute_basic_features L [] sr =
  Ret {| rms := 0; zcr := 0; spectralCentroid := 0; spectralFlatness := 0 |}.
Proof. reflexivity. Qed.

Lemma extract_features_returns (L : Libs) (file : option (list byte)) :
  exists out resp, extract_features L file = (out, Ret resp).
Proof.
  destruct file as [data |]; [| do 2 eexists; reflexivity].
  destruct data as [| b data']; [do 2 eexists; reflexivity |].
  assert (Hne : b :: data' <> []) by discriminate.
  pose proof (extract_features_cases L Hne) as H.
  destruct (np_frombuffer (skipn header_size (b :: data'))) as [raw | e].
  - cbv zeta in H.
    destruct (compute_basic_features L (decode_samples raw) 16000).
    + destruct H as (out & _ & praat & _ & H). eauto.
    + destruct H as (out & H). eauto.
  - destruct H as (out & H). eauto.
Qed.

Lemma short_upload_features (L : Libs) (data : list byte) :
  data <> [] -> (length data <= 44)%nat ->
  skipn header_size data = [] /\
  exists out out' praat,
    extract_praat_features L [] 16000 = (out', Ret praat) /\
    extract_features L (Some data) =
    (out, Ret (Features
                 {| basic_part :=
                      {| rms := 0; zcr := 0; spectralCentroid := 0;
                         spectralFlatness := 0 |};
                    mfcc := compute_mfcc L [] 16000 13;
                    praat_part := praat |})).
Proof.
  intros Hne Hlen.
  assert (Hskip : skipn header_size data = []) by now apply skipn_short.
  split; [exact Hskip |].
  pose proof (extract_features_cases L Hne) as H.
  rewrite Hskip in H. cbn in H. exact H.
Qed.

(** C1, as the code has it: the route answers with the client error only
    when the upload is missing or holds no byte at all, and then nothing
    is computed or printed.  A non-empty buffer of at most 44 bytes is not
    rejected: it decodes to zero samples and is answered with a complete
    record whose four basic features are 0. *)
Theorem empty_input_gate (L : Libs) :
  extract_features L None = ([], Ret (Error 400 "file field missing")) /\
  extract_features L (Some []) = ([], Ret (Error 400 "empty file")) /\
  (forall data, data <> [] -> (length data <= 44)%nat ->
     skipn header_size data = [] /\
     exists out out' praat,
       extract_praat_features L [] 16000 = (out', Ret praat) /\
       extract_features L (Some data) =
       (out, Ret (Features
                    {| basic_part :=
                         {| rms := 0; zcr := 0; spectralCentroid := 0;
                            spectralFlatness := 0 |};
                       mfcc := compute_mfcc L [] 16000 13;
                       praat_part := praat |}))) /\
  (forall file out msg,
     extract_features L file = (out, Ret (Error 400 msg)) ->
     file = None \/ file = Some []).
Proof.
  split; [reflexivity |]. split; [reflexivity |]. split.
  - intros data. apply short_upload_features.
  - intros [data |] out msg H; [| now left]. right.
    destruct data as [| b data']; [reflexivity | exfalso].
    assert (Hne : b :: data' <> []) by discriminate.
    pose proof (extract_features_cases L Hne) as Hc.
    destruct (np_frombuffer (skipn header_size (b :: data'))) as [raw | e].
    + cbv zeta in Hc.
      destruct (compute_basic_features L (decode_samples raw) 16000).
      * destruct Hc as (o & _ & praat & _ & Hc). congruence.
      * destruct Hc as (o & Hc). rewrite Hc in H. discriminate.
    + destruct Hc as (o & Hc). rewrite Hc in H. discriminate.
Qed.

(** C10: an upload whose post-header region has an odd number of bytes
    (such an upload is never empty) cannot be decoded as 16-bit samples;
    the error reaches the handler of the route, which prints it and
    answers with a server error and no feature record. *)
Theorem odd_region_is_server_error (L : Libs) (data : list byte) :
  Nat.odd (length (skipn header_size data)) = true ->
  data <> [] /\
  exists e,
    extract_features L (Some data) =
    ([Printed ("Error in extract_features: " ++ e); PrintedTraceback],
     Ret (Error 500 e)).
Proof.
  intros Hodd.
  assert (Hne : data <> []).
  { intros ->. rewrite skipn_nil in Hodd. discriminate. }
  split; [exact Hne |].
  exists "buffer size must be a multiple of element size"%string.
  unfold extract_features.
  destruct data as [| b data']; [congruence |]. cbn [length Nat.eqb].
  unfold extract_features_try. cbv zeta.
  unfold np_frombuffer. rewrite Hodd. reflexivity.
Qed.

Lemma odd_region_is_server_error_witness :
  Nat.odd (length (skipn header_size (wav_header ++ [x01]))) = true /\
  exists e,
    extract_features quiet_libs (Some (wav_header ++ [x01])) =
    ([Printed ("Error in extract_features: " ++ e); PrintedTraceback],
     Ret (Error 500 e)).
Proof.
  split; [reflexivity |].
  apply (odd_region_is_server_error quiet_libs (wav_header ++ [x01])).
  reflexivity.
Defined.




(** ** The pitch, formant and perturbation chain *)

Lemma perturbation_returns (L : Libs) (sound : Sound L) (d : R) :
  exists out js, perturbation L sound d = (out, Ret js).
Proof.
  unfold perturbation, try_except, call.
  destruct (perturbation_try L sound d); cbn; eauto.
Qed.

Lemma py_div_nonzero (a b : R) : b <> 0 -> py_div a b = Ret (a / b).
Proof.
  intros Hb. unfold py_div. now destruct (Req_dec_T b 0).
Qed.

Lemma estimate_speech_rate_returns (n : nat) (d : R) :
  estimate_speech_rate n d =
  ([], Ret (if (0 <? n)%nat
            then py_max 80 (py_min 200
                   (if Rlt_dec 0 d then INR n * 0.01 / 0.5 / d * 60 else 0))
            else 0)).
Proof.
  unfold estimate_speech_rate.
  destruct (0 <? n)%nat; [| reflexivity].
  destruct (Rlt_dec 0 d) as [Hd | Hd]; [| reflexivity].
  rewrite py_div_nonzero by lra. reflexivity.
Qed.

(** What a normal run of the [try] block has gone through. *)
Lemma praat_try_ret (L : Libs) (samples : list R) (sr : Z)
    (out : list Event) (r : PraatFeatures) :
  praat_try L samples sr = (out, Ret r) ->
  exists sound pitch f0_values formant f1_values f2_values js,
    new_Sound L samples sr = Ret sound /\
    to_pitch_ac L sound 0.01 50 600 = Ret pitch /\
    pitch_f0_values L pitch (duration L sound) = Ret f0_values /\
    to_formant_burg L sound 0.01 5 5500 = Ret formant /\
    formant_values L formant (duration L sound) = Ret (f1_values, f2_values) /\
    perturbation L sound (duration L sound) = (out, Ret js) /\
    r = {| f0_mean := fst (f0_stats f0_values);
           f0_range := snd (f0_stats f0_values);
           jitter := fst js; shimmer := snd js;
           f1 := mean_or_zero f1_values; f2 := mean_or_zero f2_values;
           speech_rate :=
             if (0 <? length f0_values)%nat
             then py_max 80 (py_min 200
                    (if Rlt_dec 0 (duration L sound)
                     then INR (length f0_values) * 0.01 / 0.5
                          / duration L sound * 60
                     else 0))
             else 0 |}.
Proof.
  unfold praat_try, call. cbv zeta.
  destruct (new_Sound L samples sr) as [sound | e] eqn:Hs;
    cbn [py_bind]; [| discriminate].
  destruct (to_pitch_ac L sound 0.01 50 600) as [pitch | e] eqn:Hp;
    cbn [py_bind]; [| discriminate].
  destruct (pitch_f0_values L pitch (duration L sound)) as [f0s | e] eqn:Hf0;
    cbn [py_bind]; [| discriminate].
  destruct (f0_stats f0s) as [m rg] eqn:Hstats.
  destruct (to_formant_burg L sound 0.01 5 5500) as [formant | e] eqn:Hfm;
    cbn [py_bind]; [| discriminate].
  destruct (formant_values L formant (duration L sound)) as [[f1s f2s] | e]
    eqn:Hfv; cbn [py_bind]; [| discriminate].
  destruct (perturbation_returns L sound (duration L sound))
    as (o & [j s] & Hpert).
  rewrite Hpert. cbn [py_bind].
  rewrite estimate_speech_rate_returns. cbn [py_bind py_ret app].
  rewrite !app_nil_r. intros H. inversion H; subst.
  exists sound, pitch, f0s, formant, f1s, f2s, (j, s).
  repeat (split; [reflexivity || assumption |]).
  rewrite Hstats. reflexivity.
Qed.

Lemma voiced_frames_of (L : Libs) (samples : list R) (sr : Z)
    (sound : Sound L) (pitch : Pitch L) :
  new_Sound L samples sr = Ret sound ->
  to_pitch_ac L sound 0.01 50 600 = Ret pitch ->
  voiced_frames L samples sr = pitch_f0_values L pitch (duration L sound).
Proof.
  intros Hs Hp. unfold voiced_frames. rewrite Hs. cbn. now rewrite Hp.
Qed.

Lemma extract_praat_features_cases (L : Libs) (samples : list R) (sr : Z) :
  (exists out r,
     praat_try L samples sr = (out, Ret r) /\
     extract_praat_features L samples sr = (out, Ret r)) \/
  (exists out e,
     praat_try L samples sr = (out, Raise e) /\
     extract_praat_features L samples sr =
     (out ++ [Printed ("Error in Praat extraction: " ++ e)],
      Ret praat_defaults)).
Proof.
  unfold extract_praat_features, try_except.
  destruct (praat_try L samples sr) as [out [r | e]]; [left | right]; eauto.
Qed.

Lemma clamp_bounds (v : R) : 80 <= py_max 80 (py_min 200 v) <= 200.
Proof.
  unfold py_max, py_min.
  destruct (Rlt_dec v 200); destruct (Rlt_dec 80 _); lra.
Qed.

Lemma float_tolerance_small : 0 < float_tolerance < 1.
Proof.
  unfold float_tolerance.
  assert (H : 1 < 2 ^ 51) by (apply Rlt_pow_R1; [lra | lia]).
  split; [apply Rinv_0_lt_compat; lra |].
  rewrite <- Rinv_1. apply Rinv_lt_contravar; lra.
Qed.

(** The rounded quotient is the exact one times a factor close to 1. *)
Lemma float_div_factor (L : Libs) (a b : R) :
  exists e,
    float_div L a b = a / b * (1 + e) /\
    - float_tolerance <= e <= float_tolerance.
Proof.
  pose proof float_tolerance_small as [Hpos _].
  eexists. split; [reflexivity |].
  unfold Rmax, Rmin.
  destruct (Rle_dec float_tolerance (quotient_error L a b));
    destruct (Rle_dec (- float_tolerance) _); lra.
Qed.

Lemma np_arange_nonpositive (L : Libs) (d : R) :
  d <= 0 -> np_arange L d 0.01 = [].
Proof.
  intros Hd. unfold np_arange.
  destruct (float_div_factor L d 0.01) as (e & -> & He).
  pose proof float_tolerance_small as [_ Hsmall].
  assert (Hq : d / 0.01 * (1 + e) <= 0).
  { assert (d / 0.01 <= 0) by (unfold Rdiv; lra). nra. }
  assert (Hc : (Zceil (d / 0.01 * (1 + e)) <= 0)%Z).
  { pose proof (Zceil_bound (d / 0.01 * (1 + e))) as [Hlo _].
    assert (Hlt : IZR (Zceil (d / 0.01 * (1 + e))) < IZR 1) by (cbn; lra).
    apply lt_IZR in Hlt. lia. }
  replace (Z.to_nat (Zceil (d / 0.01 * (1 + e)))) with 0%nat by lia.
  reflexivity.
Qed.

(** A voiced frame can only come from a clip of positive duration. *)
Lemma voiced_needs_duration (L : Libs) (pitch : Pitch L) (d : R)
    (f0_values : list R) :
  pitch_f0_values L pitch d = Ret f0_values ->
  f0_values <> [] -> 0 < d.
Proof.
  intros H Hne. destruct (Rlt_dec 0 d) as [Hd | Hd]; [exact Hd | exfalso].
  unfold pitch_f0_values in H.
  rewrite np_arange_nonpositive in H by lra.
  destruct (pitch_bool L pitch); cbn in H; congruence.
Qed.

Lemma perturbation_no_pulses (L : Libs) (sound : Sound L) (d : R) :
  (forall pp n,
     to_point_process L sound 50 600 = Ret pp ->
     get_number_of_points L pp = Ret n -> (n <= 1)%Z) ->
  exists out, perturbation L sound d = (out, Ret (0, 0)).
Proof.
  intros Hn. unfold perturbation, try_except, call, perturbation_try.
  destruct (to_point_process L sound 50 600) as [pp | e] eqn:Hpp;
    cbn [exc_bind]; [| cbn; eauto].
  destruct (point_process_bool L pp); [| eauto].
  destruct (get_number_of_points L pp) as [n | e] eqn:Hnp;
    cbn [exc_bind]; [| cbn; eauto].
  specialize (Hn pp n eq_refl Hnp).
  destruct (Z.ltb_spec 1 n); [lia | eauto].
Qed.

(** With more than one point in the pulse train, jitter and shimmer are
    100 times what the two Praat queries return, and 0 for a query that
    raises. *)
Lemma perturbation_with_pulses (L : Libs) (sound : Sound L) (d : R)
    (pp : PointProcess L) (n : Z) :
  to_point_process L sound 50 600 = Ret pp ->
  point_process_bool L pp = true ->
  get_number_of_points L pp = Ret n ->
  (1 < n)%Z ->
  perturbation L sound d =
  ([], Ret (match get_jitter_local L pp 0 d 0.0001 0.02 1.3 with
            | Ret j => j * 100
            | Raise _ => 0
            end,
            match get_shimmer_local L sound pp 0 d 0.0001 0.02 1.3 1.6 with
            | Ret s => s * 100
            | Raise _ => 0
            end)).
Proof.
  intros Hpp Hbool Hn Hlt.
  unfold perturbation, try_except, call, perturbation_try.
  rewrite Hpp. cbn [exc_bind]. rewrite Hbool, Hn. cbn [exc_bind].
  apply Z.ltb_lt in Hlt. now rewrite Hlt.
Qed.

(** C6, as the code has it: a clip without a voiced frame is answered,
    without an exception, with [f0_mean] and [f0_range] 0 (and a speech
    rate of 0).  [jitter] and [shimmer] are not tied to the voiced frames:
    they are read from the pulse train, which the code has Praat build from
    the sound by a call of its own.  They are 0 when that train holds at
    most one point; when it holds more, on a run of the [try] block that
    does not raise, they are 100 times what the two Praat queries return
    (0 for a query that raises). *)
Theorem unvoiced_clip_defaults (L : Libs) (samples : list R) (sr : Z) :
  voiced_frames L samples sr = Ret [] ->
  exists out r,
    extract_praat_features L samples sr = (out, Ret r) /\
    f0_mean r = 0 /\ f0_range r = 0 /\ speech_rate r = 0 /\
    ((forall sound pp n,
        new_Sound L samples sr = Ret sound ->
        to_point_process L sound 50 600 = Ret pp ->
        get_number_of_points L pp = Ret n -> (n <= 1)%Z) ->
     jitter r = 0 /\ shimmer r = 0) /\
    (forall out' r' sound pp n,
       praat_try L samples sr = (out', Ret r') ->
       new_Sound L samples sr = Ret sound ->
       to_point_process L sound 50 600 = Ret pp ->
       point_process_bool L pp = true ->
       get_number_of_points L pp = Ret n ->
       (1 < n)%Z ->
       jitter r =
         match get_jitter_local L pp 0 (duration L sound) 0.0001 0.02 1.3 with
         | Ret j => j * 100
         | Raise _ => 0
         end /\
       shimmer r =
         match get_shimmer_local L sound pp 0 (duration L sound)
                 0.0001 0.02 1.3 1.6 with
         | Ret s => s * 100
         | Raise _ => 0
         end).
Proof.
  intros Hvoiced.
  destruct (extract_praat_features_cases L samples sr)
    as [(out & r & Ht & He) | (out & e & Ht & He)].
  - exists out, r. split; [exact He |].
    pose proof Ht as Hrun. apply praat_try_ret in Hrun.
    destruct Hrun as (sound & pitch & f0s & formant & f1s & f2s & js &
                      Hs & Hp & Hf0 & _ & _ & Hpert & ->).
    rewrite (voiced_frames_of L samples sr Hs Hp), Hf0 in Hvoiced.
    injection Hvoiced as ->.
    cbn [f0_mean f0_range speech_rate jitter shimmer f0_stats length
         Nat.ltb Nat.leb fst snd].
    repeat (split; [reflexivity |]).
    split.
    + intros Hfew.
      destruct (@perturbation_no_pulses L sound (duration L sound))
        as (out' & Hzero).
      { intros pp n Hpp Hn. exact (Hfew sound pp n Hs Hpp Hn). }
      rewrite Hzero in Hpert. injection Hpert as _ <-.
      split; reflexivity.
    + intros out' r' sound' pp n _ Hs' Hpp Hbool Hn Hlt.
      rewrite Hs in Hs'. injection Hs' as <-.
      rewrite (perturbation_with_pulses L sound (duration L sound)
                 Hpp Hbool Hn Hlt) in Hpert.
      injection Hpert as _ <-. split; reflexivity.
  - eexists _, _. split; [exact He |]. cbn [praat_defaults f0_mean f0_range
      speech_rate jitter shimmer].
    repeat (split; [reflexivity |]).
    split; [intros _; split; reflexivity |].
    intros out' r' sound pp n Hret. rewrite Ht in Hret. discriminate.
Qed.

Lemma f0_loop_unvoiced (pgram : list R -> Z -> exc (list R * list R))
    (pulses : Z) (ts acc : list R) :
  f0_loop (example_libs pgram None pulses) tt ts acc = Ret acc.
Proof.
  revert acc. induction ts as [| t ts IH]; intros acc; [reflexivity |].
  cbn. apply IH.
Qed.

Lemma unvoiced_example_frames (pgram : list R -> Z -> exc (list R * list R))
    (pulses : Z) (samples : list R) (sr : Z) :
  voiced_frames (example_libs pgram None pulses) samples sr = Ret [].
Proof.
  unfold voiced_frames. cbn. unfold pitch_f0_values. cbn.
  apply f0_loop_unvoiced.
Qed.

Lemma quiet_voiced_frames (samples : list R) (sr : Z) :
  voiced_frames quiet_libs samples sr = Ret [].
Proof. apply unvoiced_example_frames. Qed.

(** The speech rate of a run, read off the voiced frames. *)
Lemma speech_rate_of_run (L : Libs) (samples : list R) (sr : Z)
    (out : list Event) (r : PraatFeatures) :
  praat_try L samples sr = (out, Ret r) ->
  exists sound f0_values,
    new_Sound L samples sr = Ret sound /\
    voiced_frames L samples sr = Ret f0_values /\
    (f0_values = [] -> speech_rate r = 0) /\
    (f0_values <> [] ->
     0 < duration L sound /\
     speech_rate r =
       py_max 80 (py_min 200 (INR (length f0_values) * 0.01 / 0.5
                              / duration L sound * 60)) /\
     80 <= speech_rate r <= 200).
Proof.
  intros Ht. apply praat_try_ret in Ht.
  destruct Ht as (sound & pitch & f0s & formant & f1s & f2s & js &
                  Hs & Hp & Hf0 & _ & _ & _ & ->).
  exists sound, f0s. split; [exact Hs |].
  split; [now rewrite (voiced_frames_of L samples sr Hs Hp) |].
  cbn [speech_rate]. split.
  - intros ->. reflexivity.
  - intros Hne.
    pose proof (voiced_needs_duration L pitch _ Hf0 Hne) as Hd.
    split; [exact Hd |].
    destruct f0s as [| v f0s']; [congruence |]. cbn [length Nat.ltb Nat.leb].
    destruct (Rlt_dec 0 (duration L sound)) as [_ | N]; [| contradiction].
    split; [reflexivity | apply clamp_bounds].
Qed.

Lemma speech_rate_no_voiced (L : Libs) (samples : list R) (sr : Z)
    (out : list Event) (r : PraatFeatures) :
  extract_praat_features L samples sr = (out, Ret r) ->
  voiced_frames L samples sr = Ret [] ->
  speech_rate r = 0.
Proof.
  intros He Hv.
  destruct (extract_praat_features_cases L samples sr)
    as [(o & r' & Ht & He') | (o & e & Ht & He')];
    rewrite He' in He; injection He as _ <-; [| reflexivity].
  destruct (speech_rate_of_run L samples sr Ht)
    as (sound & f0s & _ & Hv' & Hzero & _).
  apply Hzero. congruence.
Qed.

(** C3, as the code has it: the speech rate is either 0 or within
    [80, 200].  It is 0 when the clip has no voiced frame or when the
    Praat extraction fell back to its defaults; on a normal run with at
    least one voiced frame the duration is positive and the speech rate is
    [voiced * 0.01 / 0.5 / duration * 60] clamped to [80, 200]. *)
Theorem speech_rate_zero_or_clamped (L : Libs) (samples : list R) (sr : Z) :
  exists out r,
    extract_praat_features L samples sr = (out, Ret r) /\
    (speech_rate r = 0 \/ 80 <= speech_rate r <= 200) /\
    (voiced_frames L samples sr = Ret [] -> speech_rate r = 0) /\
    (forall out' e,
       praat_try L samples sr = (out', Raise e) -> speech_rate r = 0) /\
    (forall out' r',
       praat_try L samples sr = (out', Ret r') ->
       r = r' /\
       exists sound f0_values,
         new_Sound L samples sr = Ret sound /\
         voiced_frames L samples sr = Ret f0_values /\
         (f0_values <> [] ->
          0 < duration L sound /\
          speech_rate r =
            py_max 80 (py_min 200 (INR (length f0_values) * 0.01 / 0.5
                                   / duration L sound * 60)) /\
          80 <= speech_rate r <= 200)).
Proof.
  destruct (extract_praat_features_cases L samples sr)
    as [(out & r & Ht & He) | (out & e & Ht & He)].
  - exists out, r. split; [exact He |].
    destruct (speech_rate_of_run L samples sr Ht)
      as (sound & f0s & Hs & Hv & Hzero & Hpos).
    split.
    { destruct f0s as [| v f0s']; [left; now apply Hzero |].
      right. apply Hpos. discriminate. }
    split; [intros Hv0; apply Hzero; congruence |].
    split; [intros o e H; congruence |].
    intros o r' H. rewrite Ht in H. injection H as _ <-.
    split; [reflexivity |]. exists sound, f0s. auto.
  - eexists _, _. split; [exact He |]. cbn [speech_rate praat_defaults].
    split; [now left |]. split; [reflexivity |].
    split; [reflexivity |]. intros o r' H. congruence.
Qed.

(** C3 as stated fails: a clip without a voiced frame has speech rate 0,
    which is outside [80, 200]. *)
Lemma unvoiced_speech_rate_is_zero :
  exists out r,
    extract_praat_features quiet_libs [0] 16000 = (out, Ret r) /\
    voiced_frames quiet_libs [0] 16000 = Ret [] /\
    speech_rate r = 0 /\
    ~ (80 <= speech_rate r <= 200).
Proof.
  destruct (extract_praat_features_returns quiet_libs [0] 16000)
    as (out & r & He).
  exists out, r. split; [exact He |].
  split; [apply quiet_voiced_frames |].
  assert (Hz : speech_rate r = 0)
    by (eapply speech_rate_no_voiced; [exact He | apply quiet_voiced_frames]).
  split; [exact Hz |]. rewrite Hz. lra.
Qed.

(** ** The basic analyzer *)

(** On a non-empty signal whose periodogram is delivered, no division
    raises and the four features are the following. *)
Lemma compute_basic_features_eq (L : Libs) (x : list R) (fs : Z)
    (freqs psd : list R) :
  x <> [] ->
  periodogram L x fs = Ret (freqs, psd) ->
  compute_basic_features L x fs =
  Ret {| rms := sqrt (np_mean (np_square x));
         zcr := if (1 <? length x)%nat
                then INR (np_count (np_diff (np_signbit x)))
                     / INR (length x - 1)
                else 0;
         spectralCentroid :=
           (let p := np_maximum psd psd_floor in
            if Rlt_dec 0 (np_sum p)
            then np_sum (np_mul freqs p) / np_sum p else 0);
         spectralFlatness :=
           (let p := np_maximum psd psd_floor in
            let arith_mean := if (0 <? length p)%nat then np_mean p else 0 in
            if Rlt_dec 0 arith_mean
            then np_exp L (np_mean (map (np_log L) p)) / arith_mean else 0) |}.
Proof.
  intros Hne Hp. unfold compute_basic_features. cbv zeta.
  destruct x as [| v x']; [congruence |].
  set (x := v :: x') in *.
  assert (H0 : (0 <? length x)%nat = true) by reflexivity.
  assert (Hz : (length x =? 0)%nat = false) by reflexivity.
  rewrite H0, Hz, Hp.
  assert (Hzcr :
    (if (1 <? length x)%nat
     then py_div (INR (np_count (np_diff (np_signbit x))))
                 (INR (length x - 1))
     else Ret 0) =
    Ret (if (1 <? length x)%nat
         then INR (np_count (np_diff (np_signbit x))) / INR (length x - 1)
         else 0)).
  { destruct (Nat.ltb_spec 1 (length x)) as [H1 | H1]; [| reflexivity].
    apply py_div_nonzero. apply not_0_INR. lia. }
  rewrite Hzcr. cbn [exc_bind].
  set (p := np_maximum psd psd_floor).
  set (arith_mean := if (0 <? length p)%nat then np_mean p else 0).
  destruct (Rlt_dec 0 arith_mean) as [Ha | Ha]; [| reflexivity].
  rewrite py_div_nonzero by lra. reflexivity.
Qed.

Lemma np_sum_all_zero (l : list R) : all_zero l -> np_sum l = 0.
Proof.
  unfold np_sum. induction 1 as [| v l Hv _ IH]; cbn; [reflexivity |].
  rewrite Hv, IH. lra.
Qed.

Lemma np_square_all_zero (l : list R) : all_zero l -> all_zero (np_square l).
Proof.
  unfold all_zero, np_square. intros H. apply Forall_map.
  eapply Forall_impl; [| exact H]. cbn. intros v ->. lra.
Qed.

Lemma np_signbit_all_zero (l : list R) :
  all_zero l -> np_signbit l = repeat false (length l).
Proof.
  induction 1 as [| v l Hv _ IH]; cbn; [reflexivity |].
  fold (np_signbit l). rewrite IH, Hv.
  destruct (Rlt_dec 0 0); [lra | reflexivity].
Qed.

Lemma np_count_diff_repeat_false (n : nat) :
  np_count (np_diff (repeat false n)) = 0%nat.
Proof.
  induction n as [| n IH]; [reflexivity |].
  destruct n as [| n]; [reflexivity |]. exact IH.
Qed.

(** The only exception that leaves the basic analyzer is one raised by the
    periodogram: neither division can fail. *)
Lemma basic_raises_only_from_periodogram (L : Libs) (x : list R) (fs : Z)
    (e : string) :
  compute_basic_features L x fs = Raise e -> periodogram L x fs = Raise e.
Proof.
  intros H. destruct x as [| v x']; [discriminate |].
  assert (Hne : v :: x' <> []) by discriminate.
  destruct (periodogram L (v :: x') fs) as [[freqs psd] | e'] eqn:Hp.
  - rewrite (compute_basic_features_eq L fs Hne Hp) in H. discriminate.
  - unfold compute_basic_features in H. cbv zeta in H.
    destruct (Nat.ltb_spec 1 (length (v :: x'))) as [H1 | H1].
    + rewrite py_div_nonzero in H by (apply not_0_INR; lia).
      cbn [exc_bind length Nat.eqb] in H. rewrite Hp in H.
      cbn [exc_bind] in H. congruence.
    + cbn [exc_bind length Nat.eqb] in H. rewrite Hp in H.
      cbn [exc_bind] in H. congruence.
Qed.

(** C7: on a silent waveform of non-zero length the basic analyzer raises
    no division fault (the only exception it can end with is one of the
    periodogram call itself), and once the periodogram is delivered it
    returns a record, spectral flatness included, in which [rms] and [zcr]
    are 0. *)
Theorem silence_basic_features (L : Libs) (x : list R) (fs : Z) :
  x <> [] ->
  all_zero x ->
  (forall e,
     compute_basic_features L x fs = Raise e ->
     periodogram L x fs = Raise e) /\
  (forall freqs psd,
     periodogram L x fs = Ret (freqs, psd) ->
     exists b,
       compute_basic_features L x fs = Ret b /\ rms b = 0 /\ zcr b = 0).
Proof.
  intros Hne Hzero.
  split; [intros e; apply basic_raises_only_from_periodogram |].
  intros freqs psd Hp.
  eexists. split; [exact (compute_basic_features_eq L fs Hne Hp) |].
  cbn [rms zcr]. split.
  - unfold np_mean.
    rewrite (np_sum_all_zero (np_square_all_zero Hzero)).
    unfold Rdiv. rewrite Rmult_0_l. apply sqrt_0.
  - rewrite (np_signbit_all_zero Hzero), np_count_diff_repeat_false.
    destruct (1 <? length x)%nat; [| reflexivity].
    cbn [INR]. unfold Rdiv. apply Rmult_0_l.
Qed.

Lemma psd_floor_pos : 0 < psd_floor.
Proof. unfold psd_floor. lra. Qed.

Lemma np_maximum_floor (psd : list R) (c : R) :
  Forall (fun p => c <= p) (np_maximum psd c).
Proof.
  unfold np_maximum. apply Forall_map, Forall_forall.
  intros v _. apply Rmax_r.
Qed.

Lemma np_sum_lower_bound (c : R) (l : list R) :
  Forall (fun p => c <= p) l -> INR (length l) * c <= np_sum l.
Proof.
  unfold np_sum. induction 1 as [| v l Hv _ IH].
  - cbn. lra.
  - cbn [length fold_right]. rewrite S_INR. lra.
Qed.






(** ** The example libraries keep the promises *)







Lemma silence_basic_features_witness :
  [0; 0] <> [] /\
  all_zero [0; 0] /\
  (forall e,
     compute_basic_features quiet_libs [0; 0] 16000 = Raise e ->
     periodogram quiet_libs [0; 0] 16000 = Raise e) /\
  (forall freqs psd,
     periodogram quiet_libs [0; 0] 16000 = Ret (freqs, psd) ->
     exists b,
       compute_basic_features quiet_libs [0; 0] 16000 = Ret b /\
       rms b = 0 /\ zcr b = 0).
Proof.
  split; [discriminate |].
  split; [repeat constructor |].
  apply (@silence_basic_features quiet_libs [0; 0] 16000);
    [discriminate | repeat constructor].
Defined.










(** ** Worked examples *)

Example int16_of_examples :
  int16_of xff xff = (-1)%Z /\ int16_of x00 x80 = (-32768)%Z /\
  int16_of xff x7f = 32767%Z /\
  np_frombuffer [x01; x00; xff; x7f] = Ret [1%Z; 32767%Z].
Proof. repeat split. Qed.

Example band_bounds_of_14 :
  map (fun i => (band_start 13 14 i, band_end 13 14 i)) (seq 0 13) =
  [(0, 1); (1, 2); (2, 3); (3, 4); (4, 5); (5, 6); (6, 7); (7, 8); (8, 9);
   (9, 10); (10, 11); (11, 12); (12, 14)]%nat.
Proof. reflexivity. Qed.

Example np_arange_one_frame (L : Libs) :
  np_arange L (1 / 16000) 0.01 = [0 * 0.01].
Proof.
  unfold np_arange.
  destruct (float_div_factor L (1 / 16000) 0.01) as (e & -> & He).
  pose proof float_tolerance_small as [_ Hsmall].
  replace (Zceil (1 / 16000 / 0.01 * (1 + e))) with 1%Z; [reflexivity |].
  symmetry. apply Zceil_eq. cbn. split; nra.
Qed.

(** A clip of 0.07 s.  With exact arithmetic the loops run over 7
    instants; when the quotient is rounded upwards, as float64 rounds
    [0.07 / 0.01], they run over 8. *)
Example np_arange_rounding :
  length (np_arange quiet_libs 0.07 0.01) = 7%nat /\
  length (np_arange float64_libs 0.07 0.01) = 8%nat.
Proof.
  pose proof float_tolerance_small as [Htol _].
  assert (H53 : 0 < / 2 ^ 53 <= float_tolerance).
  { unfold float_tolerance. split.
    - apply Rinv_0_lt_compat, pow_lt. lra.
    - apply Rinv_le_contravar; [apply pow_lt; lra |].
      apply Rle_pow; [lra | lia]. }
  assert (H1 : / 2 ^ 53 < 1).
  { pose proof float_tolerance_small. lra. }
  unfold np_arange, float_div. rewrite !length_map, !length_seq.
  cbn [quotient_error quiet_libs example_libs float64_libs].
  split.
  - rewrite (Rmin_right float_tolerance 0), (Rmax_right (- float_tolerance) 0)
      by lra.
    replace (Zceil (0.07 / 0.01 * (1 + 0))) with 7%Z; [reflexivity |].
    symmetry. apply Zceil_eq. cbn. lra.
  - rewrite (Rmin_right float_tolerance (/ 2 ^ 53)),
      (Rmax_right (- float_tolerance) (/ 2 ^ 53)) by lra.
    replace (Zceil (0.07 / 0.01 * (1 + / 2 ^ 53))) with 8%Z; [reflexivity |].
    symmetry. apply Zceil_eq. cbn. lra.
Qed.

Example voiced_one_frame :
  voiced_frames voiced_libs [0] 16000 = Ret [120].
Proof.
  unfold voiced_frames, voiced_libs. cbn [example_libs new_Sound exc_bind
    to_pitch_ac duration fst snd length INR].
  unfold pitch_f0_values. cbn [example_libs pitch_bool].
  rewrite np_arange_one_frame. cbn.
  destruct (Rlt_dec 0 120); [reflexivity | lra].
Qed.

Section ExampleRuns.

Variable pgram : list R -> Z -> exc (list R * list R).
Variable f0 : option R.
Variable pulses : Z.

Lemma example_f0_loop_returns (ts acc : list R) :
  exists l, f0_loop (example_libs pgram f0 pulses) tt ts acc = Ret l.
Proof.
  revert acc. induction ts as [| t ts IH]; intros acc; cbn; eauto.
Qed.

Lemma example_formant_loop (ts a1 a2 : list R) :
  formant_loop (example_libs pgram f0 pulses) tt ts a1 a2 = Ret (a1, a2).
Proof.
  revert a1 a2. induction ts as [| t ts IH]; intros a1 a2; cbn; auto.
Qed.

Lemma example_praat_try_returns (samples : list R) (sr : Z) :
  exists out r,
    praat_try (example_libs pgram f0 pulses) samples sr = (out, Ret r).
Proof.
  unfold praat_try, call, pitch_f0_values, formant_values. cbv zeta.
  cbn [example_libs new_Sound to_pitch_ac to_formant_burg py_bind
       pitch_bool formant_bool].
  set (d := duration (example_libs pgram f0 pulses) (samples, sr)).
  destruct (example_f0_loop_returns
              (np_arange (example_libs pgram f0 pulses) d 0.01) [])
    as (f0s & Hf0).
  rewrite Hf0. cbn [py_bind].
  destruct (f0_stats f0s) as [m rg].
  cbn [example_libs to_formant_burg py_bind formant_bool].
  rewrite example_formant_loop. cbn [py_bind].
  destruct (perturbation_returns (example_libs pgram f0 pulses)
              (samples, sr) d) as (o & [j s'] & Hpert).
  rewrite Hpert. cbn [py_bind].
  rewrite estimate_speech_rate_returns. cbn. eauto.
Qed.

End ExampleRuns.

(** One voiced frame in a clip of one sample: 19200 words per minute,
    clamped to 200. *)
Example voiced_speech_rate_clamped :
  exists out r,
    extract_praat_features voiced_libs [0] 16000 = (out, Ret r) /\
    speech_rate r = 200.
Proof.
  destruct (example_praat_try_returns ideal_periodogram (Some 120) 3 [0] 16000)
    as (out & r & Ht).
  exists out, r. split.
  - unfold extract_praat_features, voiced_libs. now rewrite Ht.
  - destruct (speech_rate_of_run voiced_libs [0] 16000 Ht)
      as (sound & f0s & Hs & Hv & _ & Hpos).
    rewrite voiced_one_frame in Hv. injection Hv as <-.
    destruct Hpos as (_ & Hrate & _); [discriminate |].
    rewrite Hrate. injection Hs as <-.
    cbn [voiced_libs example_libs duration fst snd length INR].
    unfold py_max, py_min.
    destruct (Rlt_dec _ 200) as [H | H]; [exfalso; lra |].
    destruct (Rlt_dec 80 200); [reflexivity | lra].
Qed.

(** C6 as stated fails: a clip without a voiced frame whose pulse train
    holds three points is answered with jitter 1 and shimmer 5. *)
Lemma unvoiced_clip_with_pulses :
  voiced_frames pulsed_unvoiced_libs [0] 16000 = Ret [] /\
  exists out r,
    extract_praat_features pulsed_unvoiced_libs [0] 16000 = (out, Ret r) /\
    f0_mean r = 0 /\ f0_range r = 0 /\
    jitter r = 1 /\ shimmer r = 5 /\
    jitter r <> 0 /\ shimmer r <> 0.
Proof.
  split; [apply unvoiced_example_frames |].
  destruct (example_praat_try_returns ideal_periodogram None 3 [0] 16000)
    as (out & r & Ht).
  exists out, r. split.
  { unfold extract_praat_features, pulsed_unvoiced_libs. now rewrite Ht. }
  apply praat_try_ret in Ht.
  destruct Ht as (sound & pitch & f0s & formant & f1s & f2s & js &
                  Hs & Hp & Hf0 & _ & _ & Hpert & ->).
  pose proof (unvoiced_example_frames ideal_periodogram 3 [0] 16000) as Hv.
  rewrite (voiced_frames_of _ [0] 16000 Hs Hp), Hf0 in Hv.
  injection Hv as ->.
  rewrite (perturbation_with_pulses (example_libs ideal_periodogram None 3)
             sound (pp := tt) (n := 3) _ eq_refl eq_refl eq_refl eq_refl)
    in Hpert.
  injection Hpert as _ <-.
  cbn [f0_mean f0_range jitter shimmer f0_stats length Nat.ltb Nat.leb
       fst snd example_libs get_jitter_local get_shimmer_local].
  repeat split; lra.
Qed.

Lemma unvoiced_clip_defaults_witness :
  (voiced_frames quiet_libs [0] 16000 = Ret [] /\
   exists out r,
     extract_praat_features quiet_libs [0] 16000 = (out, Ret r) /\
     f0_mean r = 0 /\ f0_range r = 0 /\ speech_rate r = 0 /\
     jitter r = 0 /\ shimmer r = 0) /\
  (voiced_frames pulsed_unvoiced_libs [0] 16000 = Ret [] /\
   exists out r,
     extract_praat_features pulsed_unvoiced_libs [0] 16000 = (out, Ret r) /\
     f0_mean r = 0 /\ f0_range r = 0 /\ speech_rate r = 0 /\
     jitter r = 0.01 * 100 /\ shimmer r = 0.05 * 100).
Proof.
  split.
  - split; [apply quiet_voiced_frames |].
    destruct (@unvoiced_clip_defaults quiet_libs [0] 16000
                (quiet_voiced_frames [0] 16000))
      as (out & r & He & Hm & Hr & Hs & Hfew & _).
    exists out, r. repeat (split; [assumption |]).
    apply Hfew. intros sound pp n _ _ Hn. cbn in Hn.
    injection Hn as <-. lia.
  - split; [apply unvoiced_example_frames |].
    destruct (@unvoiced_clip_defaults pulsed_unvoiced_libs [0] 16000
                (unvoiced_example_frames ideal_periodogram 3 [0] 16000))
      as (out & r & He & Hm & Hr & Hs & _ & Hmany).
    exists out, r. repeat (split; [assumption |]).
    destruct (example_praat_try_returns ideal_periodogram None 3 [0] 16000)
      as (out' & r' & Ht).
    exact (Hmany out' r' ([0], 16000%Z) tt 3%Z Ht eq_refl eq_refl eq_refl
             eq_refl eq_refl).
Defined.

(** A header-only upload on the quiet library: every feature is 0. *)
Example quiet_praat_of_no_sample :
  extract_praat_features quiet_libs [] 16000 = ([], Ret praat_defaults).
Proof.
  unfold extract_praat_features, praat_try, call, pitch_f0_values,
    formant_values, quiet_libs. cbv zeta.
  cbn [example_libs new_Sound to_pitch_ac to_formant_burg py_bind
       pitch_bool formant_bool duration fst snd length INR].
  rewrite np_arange_nonpositive by lra.
  cbn [f0_loop py_bind f0_stats length Nat.ltb Nat.leb].
  cbn [example_libs to_formant_burg py_bind formant_bool formant_loop].
  reflexivity.
Qed.

(** C1 as stated fails: an upload that is exactly a 44-byte header has an
    empty post-header region, yet the route answers with a feature record,
    all of whose values are 0. *)
Lemma header_only_upload_accepted :
  wav_header <> [] /\
  length wav_header = 44%nat /\
  skipn header_size wav_header = [] /\
  extract_features quiet_libs (Some wav_header) =
  ([PrintedReport
      {| rms := 0; zcr := 0; spectralCentroid := 0; spectralFlatness := 0 |}
      (repeat 0 13) praat_defaults 0],
   Ret (Features
          {| basic_part :=
               {| rms := 0; zcr := 0; spectralCentroid := 0;
                  spectralFlatness := 0 |};
             mfcc := repeat 0 13;
             praat_part := praat_defaults |})).
Proof.
  split; [discriminate |]. split; [reflexivity |]. split; [reflexivity |].
  unfold extract_features, wav_header. cbn [repeat length Nat.eqb].
  unfold extract_features_try. cbv zeta.
  cbn [header_size skipn np_frombuffer length Nat.odd Nat.even negb call
       py_bind int16_pairs decode_samples map].
  rewrite compute_basic_features_empty. cbn [py_bind].
  rewrite quiet_praat_of_no_sample. reflexivity.
Qed.

(* ------------------------------------------------------------------ *)
(** * Further properties of the code *)

(** ** Decoding the upload *)

Lemma int16_of_range (lo hi : byte) :
  (-32768 <= int16_of lo hi <= 32767)%Z.
Proof.
  unfold int16_of.
  pose proof (Byte.to_N_bounded lo). pose proof (Byte.to_N_bounded hi).
  destruct (Z.ltb_spec (Z.of_N (Byte.to_N lo) + 256 * Z.of_N (Byte.to_N hi))
              32768); lia.
Qed.

Lemma list_pairs_ind (A : Type) (P : list A -> Prop) :
  P [] ->
  (forall a, P [a]) ->
  (forall a b l, P l -> P (a :: b :: l)) ->
  forall l, P l.
Proof.
  intros H0 H1 H2.
  assert (H : forall l, P l /\ forall a, P (a :: l)).
  { induction l as [| b l [IHl IHa]]; [split; [exact H0 | exact H1] |].
    split; [apply IHa |]. intros a. apply H2, IHl. }
  intros l. apply H.
Qed.

Lemma int16_pairs_length (b : list byte) :
  length (int16_pairs b) = (length b / 2)%nat.
Proof.
  induction b as [| a | lo hi rest IH] using list_pairs_ind;
    try reflexivity.
  cbn [int16_pairs length]. rewrite IH.
  replace (S (S (length rest))) with (length rest + 1 * 2)%nat by lia.
  rewrite Nat.div_add by discriminate. lia.
Qed.

Lemma int16_pairs_range (b : list byte) :
  Forall (fun v => (-32768 <= v <= 32767)%Z) (int16_pairs b).
Proof.
  induction b as [| a | lo hi rest IH] using list_pairs_ind;
    try constructor; [apply int16_of_range | exact IH].
Qed.

Lemma decode_samples_range (raw : list Z) :
  Forall (fun v => (-32768 <= v <= 32767)%Z) raw ->
  Forall (fun s => -1 <= s < 1) (decode_samples raw).
Proof.
  intros H. unfold decode_samples. apply Forall_map.
  eapply Forall_impl; [| exact H]. cbn. intros v [Hlo Hhi].
  apply IZR_le in Hlo. apply IZR_le in Hhi. lra.
Qed.

(** X1: decoding succeeds exactly on a byte string of even length; it then
    yields one sample per byte pair, every raw value is a 16-bit signed
    integer and every normalised sample lies in [-1, 1). *)
Theorem decoding_yields_unit_samples (b : list byte) :
  match np_frombuffer b with
  | Ret raw =>
      Nat.even (length b) = true /\
      length (decode_samples raw) = (length b / 2)%nat /\
      Forall (fun v => (-32768 <= v <= 32767)%Z) raw /\
      Forall (fun s => -1 <= s < 1) (decode_samples raw)
  | Raise _ => Nat.odd (length b) = true
  end.
Proof.
  unfold np_frombuffer.
  destruct (Nat.odd (length b)) eqn:Hodd; [reflexivity |].
  split; [unfold Nat.odd in Hodd; now destruct (Nat.even (length b)) |].
  split; [unfold decode_samples; rewrite length_map; apply int16_pairs_length |].
  split; [apply int16_pairs_range |].
  apply decode_samples_range, int16_pairs_range.
Qed.

Lemma skipn_header (h body : list byte) :
  length h = header_size -> skipn header_size (h ++ body) = body.
Proof.
  intros <-. rewrite skipn_app, skipn_all, Nat.sub_diag. reflexivity.
Qed.

(** X2: the 44 header bytes are never inspected: two uploads that differ
    only in their first 44 bytes get the same response and print the same
    lines. *)
Theorem header_is_ignored (L : Libs) (h1 h2 body : list byte) :
  length h1 = 44%nat ->
  length h2 = 44%nat ->
  extract_features L (Some (h1 ++ body)) =
  extract_features L (Some (h2 ++ body)).
Proof.
  intros H1 H2. unfold extract_features.
  assert (E1 : (length (h1 ++ body) =? 0)%nat = false)
    by (apply Nat.eqb_neq; rewrite length_app; lia).
  assert (E2 : (length (h2 ++ body) =? 0)%nat = false)
    by (apply Nat.eqb_neq; rewrite length_app; lia).
  rewrite E1, E2. unfold extract_features_try. cbv zeta.
  now rewrite !skipn_header.
Qed.

Lemma header_is_ignored_witness :
  length wav_header = 44%nat /\
  length (repeat xff 44) = 44%nat /\
  extract_features quiet_libs (Some (wav_header ++ [x01; x00])) =
  extract_features quiet_libs (Some (repeat xff 44 ++ [x01; x00])).
Proof.
  split; [reflexivity |]. split; [reflexivity |].
  apply (@header_is_ignored quiet_libs wav_header (repeat xff 44) [x01; x00]);
    reflexivity.
Defined.

Lemma byte_to_N_inj (a b : byte) : Byte.to_N a = Byte.to_N b -> a = b.
Proof.
  intros H. pose proof (Byte.of_to_N a) as Ha.
  rewrite H, Byte.of_to_N in Ha. congruence.
Qed.

Lemma int16_of_inj (lo hi lo' hi' : byte) :
  int16_of lo hi = int16_of lo' hi' -> lo = lo' /\ hi = hi'.
Proof.
  unfold int16_of. intros H.
  pose proof (Byte.to_N_bounded lo). pose proof (Byte.to_N_bounded hi).
  pose proof (Byte.to_N_bounded lo'). pose proof (Byte.to_N_bounded hi').
  assert (E : Byte.to_N lo = Byte.to_N lo' /\ Byte.to_N hi = Byte.to_N hi').
  { destruct (Z.ltb_spec (Z.of_N (Byte.to_N lo) + 256 * Z.of_N (Byte.to_N hi))
                32768);
    destruct (Z.ltb_spec (Z.of_N (Byte.to_N lo') + 256 * Z.of_N (Byte.to_N hi'))
                32768); lia. }
  destruct E as [E1 E2]. split; now apply byte_to_N_inj.
Qed.

Lemma decode_samples_inj (raw1 raw2 : list Z) :
  decode_samples raw1 = decode_samples raw2 -> raw1 = raw2.
Proof.
  revert raw2. induction raw1 as [| v raw1 IH]; intros [| w raw2] H;
    cbn in H; try discriminate; [reflexivity |].
  injection H as Hv Hrest. f_equal; [| now apply IH].
  apply eq_IZR. lra.
Qed.

(** X3: decoding loses nothing: two byte strings that both decode, and to
    the same normalised samples, are the same byte string. *)
Theorem decoding_is_injective (b1 b2 : list byte) (raw1 raw2 : list Z) :
  np_frombuffer b1 = Ret raw1 ->
  np_frombuffer b2 = Ret raw2 ->
  decode_samples raw1 = decode_samples raw2 ->
  b1 = b2.
Proof.
  unfold np_frombuffer. intros H1 H2 Hs.
  apply decode_samples_inj in Hs. subst raw2.
  destruct (Nat.odd (length b1)) eqn:O1; [discriminate |].
  destruct (Nat.odd (length b2)) eqn:O2; [discriminate |].
  injection H1 as <-. injection H2 as H2.
  revert b2 O2 H2.
  induction b1 as [| a | lo hi rest IH] using list_pairs_ind;
    intros b2 O2 H2.
  - destruct b2 as [| lo' [| hi' rest']]; try reflexivity; discriminate.
  - discriminate.
  - destruct b2 as [| lo' [| hi' rest']]; try discriminate.
    cbn [int16_pairs] in H2. injection H2 as Hhd Htl.
    apply int16_of_inj in Hhd. destruct Hhd as [-> ->].
    f_equal. f_equal. apply IH.
    + cbn [length] in O1. now rewrite Nat.odd_succ_succ in O1.
    + cbn [length] in O2. now rewrite Nat.odd_succ_succ in O2.
    + exact Htl.
Qed.

Lemma decoding_is_injective_witness :
  np_frombuffer [x34; x12] = Ret [4660%Z] /\
  np_frombuffer [x34; x12] = Ret [4660%Z] /\
  decode_samples [4660%Z] = decode_samples [4660%Z] /\
  [x34; x12] = [x34; x12].
Proof.
  split; [reflexivity |]. split; [reflexivity |]. split; [reflexivity |].
  apply (@decoding_is_injective [x34; x12] [x34; x12] [4660%Z] [4660%Z]);
    reflexivity.
Defined.

(** ** Ranges of the basic features *)

Lemma compute_basic_features_raise (L : Libs) (x : list R) (fs : Z)
    (e : string) :
  x <> [] ->
  periodogram L x fs = Raise e ->
  compute_basic_features L x fs = Raise e.
Proof.
  intros Hne Hp. destruct x as [| v x']; [congruence |].
  unfold compute_basic_features. cbv zeta.
  destruct (Nat.ltb_spec 1 (length (v :: x'))) as [H1 | H1].
  - rewrite py_div_nonzero by (apply not_0_INR; lia).
    cbn [exc_bind length Nat.eqb]. now rewrite Hp.
  - cbn [exc_bind length Nat.eqb]. now rewrite Hp.
Qed.

(** The two ways the basic analyzer returns. *)
Lemma compute_basic_features_inv (L : Libs) (x : list R) (fs : Z)
    (b : BasicFeatures) :
  compute_basic_features L x fs = Ret b ->
  (x = [] /\
   b = {| rms := 0; zcr := 0; spectralCentroid := 0;
          spectralFlatness := 0 |}) \/
  (x <> [] /\
   exists freqs psd,
     periodogram L x fs = Ret (freqs, psd) /\
     rms b = sqrt (np_mean (np_square x)) /\
     zcr b = (if (1 <? length x)%nat
              then INR (np_count (np_diff (np_signbit x)))
                   / INR (length x - 1)
              else 0) /\
     spectralCentroid b =
       (let p := np_maximum psd psd_floor in
        if Rlt_dec 0 (np_sum p)
        then np_sum (np_mul freqs p) / np_sum p else 0) /\
     spectralFlatness b =
       (let p := np_maximum psd psd_floor in
        let arith_mean := if (0 <? length p)%nat then np_mean p else 0 in
        if Rlt_dec 0 arith_mean
        then np_exp L (np_mean (map (np_log L) p)) / arith_mean else 0)).
Proof.
  intros H. destruct x as [| v x'].
  - left. split; [reflexivity |].
    rewrite compute_basic_features_empty in H. congruence.
  - right. assert (Hne : v :: x' <> []) by discriminate.
    split; [exact Hne |].
    destruct (periodogram L (v :: x') fs) as [[freqs psd] | e] eqn:Hp.
    + exists freqs, psd. split; [reflexivity |].
      rewrite (compute_basic_features_eq L fs Hne Hp) in H.
      injection H as <-. cbn [rms zcr spectralCentroid spectralFlatness].
      repeat split; reflexivity.
    + rewrite (compute_basic_features_raise L fs Hne Hp) in H. discriminate.
Qed.

Lemma np_sum_nonneg (l : list R) : Forall (fun v => 0 <= v) l -> 0 <= np_sum l.
Proof.
  unfold np_sum. induction 1 as [| v l Hv _ IH]; cbn; lra.
Qed.

Lemma np_sum_zero_all_zero (l : list R) :
  Forall (fun v => 0 <= v) l -> np_sum l = 0 -> all_zero l.
Proof.
  unfold np_sum, all_zero. induction 1 as [| v l Hv Hl IH]; cbn; intros Hs;
    [constructor |].
  pose proof (np_sum_nonneg Hl) as Hn. unfold np_sum in Hn.
  constructor; [lra | apply IH; lra].
Qed.

Lemma np_square_nonneg (x : list R) :
  Forall (fun v => 0 <= v) (np_square x).
Proof.
  unfold np_square. apply Forall_map, Forall_forall. intros v _. nra.
Qed.

Lemma np_sum_upper_bound (c : R) (l : list R) :
  Forall (fun p => p <= c) l -> np_sum l <= INR (length l) * c.
Proof.
  unfold np_sum. induction 1 as [| v l Hv _ IH].
  - cbn. lra.
  - cbn [length fold_right]. rewrite S_INR. lra.
Qed.

Lemma np_mean_nonneg (l : list R) :
  Forall (fun v => 0 <= v) l -> 0 <= np_mean l.
Proof.
  intros H. unfold np_mean. destruct l as [| v l].
  - cbn. unfold Rdiv. rewrite Rmult_0_l. lra.
  - apply Rmult_le_pos; [now apply np_sum_nonneg |].
    apply Rlt_le, Rinv_0_lt_compat, lt_0_INR. cbn. lia.
Qed.

Lemma np_mean_upper_bound (c : R) (l : list R) :
  l <> [] -> Forall (fun p => p <= c) l -> np_mean l <= c.
Proof.
  intros Hne H. unfold np_mean.
  assert (Hn : 0 < INR (length l)).
  { apply lt_0_INR. destruct l; [congruence | cbn; lia]. }
  apply (Rmult_le_reg_r (INR (length l))); [exact Hn |].
  unfold Rdiv. rewrite Rmult_assoc, Rinv_l, Rmult_1_r by lra.
  rewrite Rmult_comm. now apply np_sum_upper_bound.
Qed.

Lemma rms_range (L : Libs) (x : list R) (fs : Z) (b : BasicFeatures) :
  compute_basic_features L x fs = Ret b ->
  0 <= rms b /\
  (forall c, 0 <= c -> Forall (fun v => Rabs v <= c) x -> rms b <= c).
Proof.
  intros H. apply compute_basic_features_inv in H.
  destruct H as [[-> ->] | (Hne & freqs & psd & _ & Hrms & _)].
  - cbn [rms]. split; [lra | intros; lra].
  - rewrite Hrms. split; [apply sqrt_pos |].
    intros c Hc Hx.
    rewrite <- (sqrt_square c Hc). apply sqrt_le_1_alt.
    apply np_mean_upper_bound.
    + destruct x; [congruence | discriminate].
    + unfold np_square. apply Forall_map.
      eapply Forall_impl; [| exact Hx]. cbn. intros v Hv.
      assert (Hv2 : v * v = Rabs v * Rabs v).
      { unfold Rabs. destruct (Rcase_abs v); ring. }
      rewrite Hv2. pose proof (Rabs_pos v). nra.
Qed.

(** X4: whenever the basic analyzer returns, [rms] is non-negative and at
    most the largest sample magnitude, and it is 0 exactly when every
    sample is 0. *)
Theorem rms_bounds (L : Libs) (x : list R) (fs : Z) (b : BasicFeatures) :
  compute_basic_features L x fs = Ret b ->
  0 <= rms b /\
  (forall c, 0 <= c -> Forall (fun v => Rabs v <= c) x -> rms b <= c) /\
  (rms b = 0 <-> all_zero x).
Proof.
  intros H. destruct (rms_range L _ _ H) as [H0 Hc].
  split; [exact H0 |]. split; [exact Hc |].
  apply compute_basic_features_inv in H.
  destruct H as [[-> ->] | (Hne & freqs & psd & _ & Hrms & _)].
  - cbn [rms]. split; [constructor | reflexivity].
  - rewrite Hrms. split.
    + intros Hz.
      apply sqrt_eq_0 in Hz; [| apply np_mean_nonneg, np_square_nonneg].
      assert (Hn : 0 < INR (length (np_square x))).
      { apply lt_0_INR. unfold np_square. rewrite length_map.
        destruct x; [congruence | cbn; lia]. }
      assert (Hs : np_sum (np_square x) = 0).
      { unfold np_mean, Rdiv in Hz.
        apply Rmult_integral in Hz. destruct Hz as [Hz | Hz]; [exact Hz |].
        pose proof (Rinv_0_lt_compat _ Hn). lra. }
      pose proof (np_sum_zero_all_zero (np_square_nonneg x) Hs) as Hall.
      unfold all_zero, np_square in *. rewrite Forall_map in Hall.
      eapply Forall_impl; [| exact Hall]. cbn. intros v Hv. nra.
    + intros Hz. unfold np_mean.
      rewrite (np_sum_all_zero (np_square_all_zero Hz)).
      unfold Rdiv. rewrite Rmult_0_l. apply sqrt_0.
Qed.

Lemma basic_returns_on_example (x : list R) :
  x <> [] ->
  exists b, compute_basic_features quiet_libs x 16000 = Ret b.
Proof.
  intros Hne. eexists.
  refine (compute_basic_features_eq quiet_libs 16000 Hne _). reflexivity.
Qed.

Lemma rms_bounds_witness :
  exists b,
    compute_basic_features quiet_libs [0.5; -0.5] 16000 = Ret b /\
    0 <= rms b /\
    (forall c, 0 <= c -> Forall (fun v => Rabs v <= c) [0.5; -0.5] ->
       rms b <= c) /\
    (rms b = 0 <-> all_zero [0.5; -0.5]).
Proof.
  destruct (@basic_returns_on_example [0.5; -0.5]) as [b Hb];
    [discriminate |].
  exists b. split; [exact Hb |].
  exact (@rms_bounds quiet_libs [0.5; -0.5] 16000 b Hb).
Defined.

Lemma np_diff_length (l : list bool) :
  length (np_diff l) = (length l - 1)%nat.
Proof.
  induction l as [| a l IH]; [reflexivity |].
  destruct l as [| b l]; [reflexivity |].
  cbn [np_diff length] in *. rewrite IH. lia.
Qed.

Lemma np_count_le (l : list bool) : (np_count l <= length l)%nat.
Proof. unfold np_count. apply filter_length_le. Qed.

Lemma np_count_diff_constant (l : list bool) (c : bool) :
  Forall (fun b => b = c) l -> np_count (np_diff l) = 0%nat.
Proof.
  induction 1 as [| a l Ha Hl IH]; [reflexivity |].
  destruct l as [| b l]; [reflexivity |].
  cbn [np_diff]. inversion Hl; subst. rewrite xorb_nilpotent.
  exact IH.
Qed.

Lemma Rdiv_mult_cancel (a d : R) : d <> 0 -> a / d * d = a.
Proof. intros Hd. field. exact Hd. Qed.

Lemma zcr_count (L : Libs) (x : list R) (fs : Z) (b : BasicFeatures) :
  compute_basic_features L x fs = Ret b ->
  zcr b * INR (length x - 1) = INR (np_count (np_diff (np_signbit x))).
Proof.
  intros H. apply compute_basic_features_inv in H.
  destruct H as [[-> ->] | (Hne & freqs & psd & _ & _ & Hzcr & _)].
  - cbn. lra.
  - rewrite Hzcr. clear Hzcr.
    set (k := np_count (np_diff (np_signbit x))).
    assert (Hk : (k <= length x - 1)%nat).
    { unfold k. etransitivity; [apply np_count_le |].
      rewrite np_diff_length. unfold np_signbit. now rewrite length_map. }
    destruct (Nat.ltb_spec 1 (length x)) as [H1 | H1].
    + apply Rdiv_mult_cancel. apply not_0_INR. lia.
    + assert (Hk0 : k = 0%nat) by lia. rewrite Hk0. cbn [INR]. lra.
Qed.

Lemma zcr_range (L : Libs) (x : list R) (fs : Z) (b : BasicFeatures) :
  compute_basic_features L x fs = Ret b -> 0 <= zcr b <= 1.
Proof.
  intros H. pose proof (zcr_count L _ _ H) as Hc.
  apply compute_basic_features_inv in H.
  destruct H as [[-> ->] | (Hne & freqs & psd & _ & _ & Hzcr & _)].
  - cbn [zcr]. lra.
  - set (k := np_count (np_diff (np_signbit x))) in *.
    assert (Hk : (k <= length x - 1)%nat).
    { unfold k. etransitivity; [apply np_count_le |].
      rewrite np_diff_length. unfold np_signbit. now rewrite length_map. }
    destruct (Nat.ltb_spec 1 (length x)) as [H1 | H1].
    + assert (Hn : 0 < INR (length x - 1)) by (apply lt_0_INR; lia).
      apply le_INR in Hk. pose proof (pos_INR k). nra.
    + rewrite Hzcr. lra.
Qed.

(** X5: whenever the basic analyzer returns, [zcr] lies in [0, 1]: it is
    the number of neighbouring samples of different sign bit over [N - 1].
    It is 0 for a signal whose samples are all non-negative, or all
    negative. *)
Theorem zcr_bounds (L : Libs) (x : list R) (fs : Z) (b : BasicFeatures) :
  compute_basic_features L x fs = Ret b ->
  0 <= zcr b <= 1 /\
  zcr b * INR (length x - 1) = INR (np_count (np_diff (np_signbit x))) /\
  (Forall (fun v => 0 <= v) x \/ Forall (fun v => v < 0) x -> zcr b = 0).
Proof.
  intros H. split; [exact (zcr_range L _ _ H) |].
  split; [exact (zcr_count L _ _ H) |].
  intros Hsign.
  assert (Hc : np_count (np_diff (np_signbit x)) = 0%nat).
  { destruct Hsign as [Hs | Hs].
    - apply (np_count_diff_constant (c := false)).
      unfold np_signbit. apply Forall_map.
      eapply Forall_impl; [| exact Hs]. cbn. intros v Hv.
      destruct (Rlt_dec v 0); [lra | reflexivity].
    - apply (np_count_diff_constant (c := true)).
      unfold np_signbit. apply Forall_map.
      eapply Forall_impl; [| exact Hs]. cbn. intros v Hv.
      destruct (Rlt_dec v 0); [reflexivity | lra]. }
  apply compute_basic_features_inv in H.
  destruct H as [[-> ->] | (Hne & freqs & psd & _ & _ & Hzcr & _)];
    [reflexivity |].
  rewrite Hzcr, Hc. destruct (_ <? _)%nat; [| reflexivity].
  cbn [INR]. unfold Rdiv. apply Rmult_0_l.
Qed.

Lemma zcr_bounds_witness :
  exists b,
    compute_basic_features quiet_libs [0.5; -0.5] 16000 = Ret b /\
    0 <= zcr b <= 1 /\
    zcr b * INR (length [0.5; -0.5] - 1) =
      INR (np_count (np_diff (np_signbit [0.5; -0.5]))) /\
    (Forall (fun v => 0 <= v) [0.5; -0.5] \/
     Forall (fun v => v < 0) [0.5; -0.5] -> zcr b = 0).
Proof.
  destruct (@basic_returns_on_example [0.5; -0.5]) as [b Hb];
    [discriminate |].
  exists b. split; [exact Hb |].
  exact (@zcr_bounds quiet_libs [0.5; -0.5] 16000 b Hb).
Defined.

Lemma np_maximum_positive (psd : list R) :
  Forall (fun p => 0 < p) (np_maximum psd psd_floor).
Proof.
  eapply Forall_impl; [| apply np_maximum_floor].
  cbn. intros p Hp. pose proof psd_floor_pos. lra.
Qed.

Lemma np_mean_positive (l : list R) :
  l <> [] -> Forall (fun p => 0 < p) l -> 0 < np_mean l.
Proof.
  intros Hne Hpos. unfold np_mean.
  destruct l as [| p l]; [congruence |].
  apply Rdiv_lt_0_compat; [| apply lt_0_INR; cbn; lia].
  inversion Hpos as [| ? ? Hp Hl]; subst.
  assert (0 <= np_sum l).
  { apply np_sum_nonneg. eapply Forall_impl; [| exact Hl]. cbn. intros. lra. }
  unfold np_sum in *. cbn. lra.
Qed.

(** The flatness is never negative, [np.exp] returning no negative
    number. *)
Lemma flatness_nonneg (L : Libs) (x : list R) (fs : Z) (b : BasicFeatures) :
  exp_nonnegative L ->
  compute_basic_features L x fs = Ret b -> 0 <= spectralFlatness b.
Proof.
  intros Hexp H. apply compute_basic_features_inv in H.
  destruct H as [[-> ->] | (Hne & freqs & psd & Hp & _ & _ & _ & ->)].
  - cbn [spectralFlatness]. lra.
  - cbv zeta.
    destruct (Rlt_dec 0 _) as [Hm | _]; [| lra].
    apply Rmult_le_pos; [apply Hexp |].
    left. now apply Rinv_0_lt_compat.
Qed.

Lemma weighted_sum_bounds (lo hi : R) (freqs w : list R) :
  length freqs = length w ->
  Forall (fun f => lo <= f <= hi) freqs ->
  Forall (fun p => 0 < p) w ->
  lo * np_sum w <= np_sum (np_mul freqs w) <= hi * np_sum w.
Proof.
  unfold np_sum. revert w.
  induction freqs as [| f freqs IH]; intros [| p w] Hlen Hf Hw;
    cbn in Hlen; try discriminate.
  - cbn. lra.
  - inversion Hf as [| ? ? [Hlo Hhi] Hf']; subst.
    inversion Hw as [| ? ? Hp Hw']; subst.
    injection Hlen as Hlen. specialize (IH w Hlen Hf' Hw').
    cbn [np_mul fold_right]. nra.
Qed.

(** X7: when the periodogram delivers as many frequencies as power bins
    (at least one), the spectral centroid is a weighted mean of the
    frequencies with positive weights: it lies between any two bounds that
    enclose all the frequencies, in particular within [0, fs/2] when the
    frequencies do. *)
Theorem centroid_bounds (L : Libs) (x : list R) (fs : Z) (b : BasicFeatures)
    (freqs psd : list R) (lo hi : R) :
  compute_basic_features L x fs = Ret b ->
  x <> [] ->
  periodogram L x fs = Ret (freqs, psd) ->
  psd <> [] ->
  length freqs = length psd ->
  Forall (fun f => lo <= f <= hi) freqs ->
  lo <= spectralCentroid b <= hi.
Proof.
  intros H Hne Hp Hpsd Hlen Hf.
  rewrite (compute_basic_features_eq L fs Hne Hp) in H. injection H as <-.
  cbn [spectralCentroid]. cbv zeta.
  set (p := np_maximum psd psd_floor).
  pose proof (np_maximum_positive psd) as Hpos. fold p in Hpos.
  assert (Hpne : p <> []).
  { unfold p, np_maximum. destruct psd; [congruence | discriminate]. }
  assert (Hlenp : length freqs = length p).
  { unfold p, np_maximum. now rewrite length_map. }
  assert (Hsum : 0 < np_sum p).
  { pose proof (np_mean_positive Hpne Hpos) as Hm. unfold np_mean in Hm.
    assert (Hn : 0 < INR (length p)).
    { apply lt_0_INR. destruct p; [congruence | cbn; lia]. }
    apply (Rmult_lt_compat_r _ _ _ Hn) in Hm.
    unfold Rdiv in Hm. rewrite Rmult_assoc, Rinv_l, Rmult_1_r in Hm by lra.
    lra. }
  destruct (Rlt_dec 0 (np_sum p)) as [_ | N]; [| contradiction].
  destruct (weighted_sum_bounds Hlenp Hf Hpos) as [Hl Hh].
  split.
  - apply (Rmult_le_reg_r (np_sum p)); [exact Hsum |].
    unfold Rdiv. rewrite Rmult_assoc, Rinv_l, Rmult_1_r by lra. exact Hl.
  - apply (Rmult_le_reg_r (np_sum p)); [exact Hsum |].
    unfold Rdiv. rewrite Rmult_assoc, Rinv_l, Rmult_1_r by lra. exact Hh.
Qed.

Lemma centroid_bounds_witness :
  exists b freqs psd,
    compute_basic_features quiet_libs [0.5; -0.5] 16000 = Ret b /\
    [0.5; -0.5] <> [] /\
    periodogram quiet_libs [0.5; -0.5] 16000 = Ret (freqs, psd) /\
    psd <> [] /\
    length freqs = length psd /\
    Forall (fun f => 0 <= f <= 8000) freqs /\
    0 <= spectralCentroid b <= 8000.
Proof.
  destruct (@basic_returns_on_example [0.5; -0.5]) as [b Hb];
    [discriminate |].
  assert (Hne : [0.5; -0.5] <> []) by discriminate.
  exists b. eexists _, _.
  split; [exact Hb |]. split; [exact Hne |].
  split; [reflexivity |].
  match goal with
  | |- ?P1 /\ ?P2 /\ ?P3 /\ _ =>
      assert (H1 : P1) by discriminate;
      assert (H2 : P2) by reflexivity;
      assert (H3 : P3) by (repeat constructor; cbn; lra)
  end.
  split; [exact H1 |]. split; [exact H2 |]. split; [exact H3 |].
  exact (@centroid_bounds quiet_libs [0.5; -0.5] 16000 b _ _ 0 8000
           Hb Hne eq_refl H1 H2 H3).
Defined.

(** ** More on the cepstral approximator *)

Lemma Forall_slice (A : Type) (P : A -> Prop) (l : list A) (start stop : nat) :
  Forall P l -> Forall P (slice l start stop).
Proof.
  intros H. unfold slice.
  rewrite <- (firstn_skipn start l) in H. apply Forall_app in H.
  destruct H as [_ H].
  rewrite <- (firstn_skipn (stop - start) (skipn start l)) in H.
  apply Forall_app in H. apply H.
Qed.

Lemma lower_half_magnitude_nonneg (fft : list complex) :
  Forall (fun m => 0 <= m) (lower_half_magnitude fft).
Proof.
  unfold lower_half_magnitude. apply Forall_map, Forall_forall.
  intros z _. apply sqrt_pos.
Qed.

Lemma band_coeff_nonneg (magnitude : list R) (K i : nat) :
  Forall (fun m => 0 <= m) magnitude -> 0 <= band_coeff magnitude K i.
Proof.
  intros H. unfold band_coeff. cbv zeta.
  destruct (_ <? _)%nat; [| lra].
  now apply np_mean_nonneg, Forall_slice.
Qed.

Lemma compute_mfcc_nonneg (L : Libs) (samples : list R) (sr : Z) (K : nat) :
  Forall (fun c => 0 <= c) (compute_mfcc L samples sr K).
Proof.
  rewrite compute_mfcc_unfold. destruct (np_fft L samples) as [fft | e].
  - apply Forall_map, Forall_forall. intros i _.
    apply band_coeff_nonneg, lower_half_magnitude_nonneg.
  - apply Forall_forall. intros c Hc. apply repeat_spec in Hc. lra.
Qed.

(** X8: for every coefficient count [K], every sample array and every
    behaviour of the transform, the cepstral approximator returns exactly
    [K] coefficients, none of them negative; the sample rate it is given
    has no influence on them. *)
Theorem compute_mfcc_shape (L : Libs) (samples : list R) (sr sr' : Z)
    (K : nat) :
  length (compute_mfcc L samples sr K) = K /\
  Forall (fun c => 0 <= c) (compute_mfcc L samples sr K) /\
  compute_mfcc L samples sr K = compute_mfcc L samples sr' K.
Proof.
  split; [apply compute_mfcc_length |].
  split; [apply compute_mfcc_nonneg |].
  unfold compute_mfcc. reflexivity.
Qed.

Lemma band_width_lower_bound (K M i : nat) :
  K <> 0%nat -> (M / K <= band_width K M i)%nat.
Proof.
  intros HK. destruct (band_width_floor_or_ceil M i HK) as [-> | ->]; lia.
Qed.

(** X9: when the transform of a clip returns [n] values, every one of the
    13 bands holds at least [(n / 2) / 13] magnitudes, so from 26 values on
    no band is empty and each coefficient is a true mean; below 2 values
    there is no magnitude at all and the 13 coefficients are 0. *)
Theorem compute_mfcc_band_population (L : Libs) (samples : list R) (sr : Z)
    (fft : list complex) :
  np_fft L samples = Ret fft ->
  let M := (length fft / 2)%nat in
  (forall i, (i < 13)%nat -> (M / 13 <= band_width 13 M i)%nat) /\
  ((26 <= length fft)%nat ->
   forall i, (i < 13)%nat ->
     (0 < band_width 13 M i)%nat /\
     nth i (compute_mfcc L samples sr 13) 0 =
       np_mean (slice (lower_half_magnitude fft)
                      (band_start 13 M i) (band_end 13 M i))) /\
  ((length fft < 2)%nat -> compute_mfcc L samples sr 13 = repeat 0 13).
Proof.
  intros Hfft M.
  assert (H13 : 13%nat <> 0%nat) by discriminate.
  assert (HM : length (lower_half_magnitude fft) = M)
    by apply lower_half_length.
  split; [intros i _; now apply band_width_lower_bound |].
  split.
  - intros Hlen i Hi.
    assert (Hw : (0 < band_width 13 M i)%nat).
    { pose proof (band_width_lower_bound M i H13) as Hb.
      assert (1 <= M / 13)%nat.
      { apply Nat.div_le_lower_bound; [exact H13 |].
        unfold M. replace (13 * 1)%nat with (26 / 2)%nat by reflexivity.
        now apply Nat.Div0.div_le_mono. }
      lia. }
    split; [exact Hw |].
    rewrite compute_mfcc_unfold, Hfft.
    rewrite (nth_indep _ 0 (band_coeff (lower_half_magnitude fft) 13 0))
      by (now rewrite length_map, length_seq).
    rewrite (map_nth (band_coeff (lower_half_magnitude fft) 13)),
      seq_nth by exact Hi.
    cbn [Nat.add]. unfold band_coeff. rewrite HM. cbv zeta.
    unfold band_width in Hw.
    destruct (Nat.ltb_spec (band_start 13 M i) (band_end 13 M i));
      [reflexivity | lia].
  - intros Hlen. rewrite compute_mfcc_unfold, Hfft.
    assert (HM0 : M = 0%nat) by (unfold M; now apply Nat.div_small).
    assert (E : forall i, band_coeff (lower_half_magnitude fft) 13 i = 0).
    { intros i. unfold band_coeff. rewrite HM, HM0. cbv zeta.
      unfold band_start, band_end. rewrite !Nat.mul_0_r. reflexivity. }
    cbn [seq map]. now rewrite !E.
Qed.

Lemma compute_mfcc_band_population_witness :
  exists fft,
    np_fft quiet_libs (repeat 0 28) = Ret fft /\
    let M := (length fft / 2)%nat in
    (forall i, (i < 13)%nat -> (M / 13 <= band_width 13 M i)%nat) /\
    ((26 <= length fft)%nat ->
     forall i, (i < 13)%nat ->
       (0 < band_width 13 M i)%nat /\
       nth i (compute_mfcc quiet_libs (repeat 0 28) 16000 13) 0 =
         np_mean (slice (lower_half_magnitude fft)
                        (band_start 13 M i) (band_end 13 M i))) /\
    ((length fft < 2)%nat ->
     compute_mfcc quiet_libs (repeat 0 28) 16000 13 = repeat 0 13).
Proof.
  eexists. split; [reflexivity |].
  apply (@compute_mfcc_band_population quiet_libs (repeat 0 28) 16000).
  reflexivity.
Defined.

(** ** Pitch and formant aggregates *)

Lemma append_if_positive_spec (values : list R) (v : option R) :
  exists new,
    append_if_positive values v = values ++ new /\
    Forall (fun f => 0 < f) new /\ (length new <= 1)%nat.
Proof.
  unfold append_if_positive. destruct v as [f |].
  - destruct (Rlt_dec 0 f).
    + exists [f]. repeat split; [repeat constructor; assumption | cbn; lia].
    + exists []. rewrite app_nil_r. repeat split; [constructor | cbn; lia].
  - exists []. rewrite app_nil_r. repeat split; [constructor | cbn; lia].
Qed.

(** The pitch loop only ever appends positive values, at most one per
    instant. *)
Lemma f0_loop_spec (L : Libs) (pitch : Pitch L) (ts acc l : list R) :
  f0_loop L pitch ts acc = Ret l ->
  exists new,
    l = acc ++ new /\ Forall (fun f => 0 < f) new /\
    (length new <= length ts)%nat.
Proof.
  revert acc. induction ts as [| t ts IH]; intros acc H.
  - cbn in H. injection H as <-. exists []. rewrite app_nil_r.
    repeat split; [constructor | cbn; lia].
  - cbn [f0_loop] in H.
    destruct (pitch_get_value_at_time L pitch t) as [v | e];
      cbn [exc_bind] in H; [| discriminate].
    destruct (append_if_positive_spec acc v) as (n1 & E1 & P1 & L1).
    rewrite E1 in H. apply IH in H. destruct H as (n2 & E2 & P2 & L2).
    exists (n1 ++ n2). rewrite E2, app_assoc. split; [reflexivity |].
    split; [now apply Forall_app |]. rewrite length_app. cbn [length]. lia.
Qed.

Lemma formant_loop_spec (L : Libs) (formant : Formant L)
    (ts a1 a2 l1 l2 : list R) :
  formant_loop L formant ts a1 a2 = Ret (l1, l2) ->
  exists n1 n2,
    l1 = a1 ++ n1 /\ l2 = a2 ++ n2 /\
    Forall (fun f => 0 < f) n1 /\ Forall (fun f => 0 < f) n2.
Proof.
  revert a1 a2. induction ts as [| t ts IH]; intros a1 a2 H.
  - cbn in H. injection H as <- <-. exists [], []. rewrite !app_nil_r.
    repeat split; constructor.
  - cbn [formant_loop] in H.
    destruct (formant_get_value_at_time L formant 1 t) as [v1 | e];
      cbn [exc_bind] in H; [| discriminate].
    destruct (formant_get_value_at_time L formant 2 t) as [v2 | e];
      cbn [exc_bind] in H; [| discriminate].
    destruct (append_if_positive_spec a1 v1) as (m1 & E1 & P1 & _).
    destruct (append_if_positive_spec a2 v2) as (m2 & E2 & P2 & _).
    rewrite E1, E2 in H. apply IH in H.
    destruct H as (n1 & n2 & -> & -> & Q1 & Q2).
    exists (m1 ++ n1), (m2 ++ n2). rewrite !app_assoc.
    repeat split; try reflexivity; now apply Forall_app.
Qed.

Lemma pitch_f0_values_spec (L : Libs) (pitch : Pitch L) (d : R)
    (f0_values : list R) :
  pitch_f0_values L pitch d = Ret f0_values ->
  Forall (fun f => 0 < f) f0_values /\
  (length f0_values <= length (np_arange L d 0.01))%nat.
Proof.
  unfold pitch_f0_values. intros H. destruct (pitch_bool L pitch).
  - apply f0_loop_spec in H. destruct H as (new & -> & P & Hl).
    cbn [app]. now split.
  - injection H as <-. split; [constructor | cbn; lia].
Qed.

Lemma formant_values_spec (L : Libs) (formant : Formant L) (d : R)
    (f1_values f2_values : list R) :
  formant_values L formant d = Ret (f1_values, f2_values) ->
  Forall (fun f => 0 < f) f1_values /\ Forall (fun f => 0 < f) f2_values.
Proof.
  unfold formant_values. intros H. destruct (formant_bool L formant).
  - apply formant_loop_spec in H.
    destruct H as (n1 & n2 & -> & -> & P1 & P2). cbn [app]. now split.
  - injection H as <- <-. split; constructor.
Qed.

Lemma fold_left_Rmin_le (l : list R) (a : R) :
  fold_left Rmin l a <= a /\ Forall (fun v => fold_left Rmin l a <= v) l.
Proof.
  revert a. induction l as [| v l IH]; intros a; cbn [fold_left].
  - split; [lra | constructor].
  - destruct (IH (Rmin a v)) as [H1 H2].
    pose proof (Rmin_l a v). pose proof (Rmin_r a v).
    split; [lra |]. constructor; [lra | exact H2].
Qed.

Lemma fold_left_Rmax_ge (l : list R) (a : R) :
  a <= fold_left Rmax l a /\ Forall (fun v => v <= fold_left Rmax l a) l.
Proof.
  revert a. induction l as [| v l IH]; intros a; cbn [fold_left].
  - split; [lra | constructor].
  - destruct (IH (Rmax a v)) as [H1 H2].
    pose proof (Rmax_l a v). pose proof (Rmax_r a v).
    split; [lra |]. constructor; [lra | exact H2].
Qed.

Lemma fold_left_Rmin_pos (l : list R) (a : R) :
  0 < a -> Forall (fun v => 0 < v) l -> 0 < fold_left Rmin l a.
Proof.
  revert a. induction l as [| v l IH]; intros a Ha Hl; cbn [fold_left];
    [exact Ha |].
  inversion Hl; subst. apply IH; [| assumption].
  unfold Rmin. destruct (Rle_dec a v); assumption.
Qed.

Lemma np_min_le_all (l : list R) : Forall (fun v => np_min l <= v) l.
Proof.
  destruct l as [| a l]; [constructor |]. cbn [np_min].
  destruct (fold_left_Rmin_le l a). now constructor.
Qed.

Lemma np_max_ge_all (l : list R) : Forall (fun v => v <= np_max l) l.
Proof.
  destruct l as [| a l]; [constructor |]. cbn [np_max].
  destruct (fold_left_Rmax_ge l a). now constructor.
Qed.

Lemma np_mean_lower_bound (c : R) (l : list R) :
  l <> [] -> Forall (fun p => c <= p) l -> c <= np_mean l.
Proof.
  intros Hne H. unfold np_mean.
  assert (Hn : 0 < INR (length l)).
  { apply lt_0_INR. destruct l; [congruence | cbn; lia]. }
  apply (Rmult_le_reg_r (INR (length l))); [exact Hn |].
  unfold Rdiv. rewrite Rmult_assoc, Rinv_l, Rmult_1_r by lra.
  rewrite Rmult_comm. now apply np_sum_lower_bound.
Qed.



Lemma mean_or_zero_nonneg (values : list R) :
  Forall (fun f => 0 < f) values -> 0 <= mean_or_zero values.
Proof.
  intros H. unfold mean_or_zero. destruct (_ <? _)%nat; [| lra].
  apply np_mean_nonneg. eapply Forall_impl; [| exact H]. cbn. intros. lra.
Qed.

Lemma praat_record_nonneg (L : Libs) (samples : list R) (sr : Z) :
  exists out r,
    extract_praat_features L samples sr = (out, Ret r) /\
    0 <= f0_mean r /\ 0 <= f0_range r /\ 0 <= f1 r /\ 0 <= f2 r.
Proof.
  destruct (extract_praat_features_cases L samples sr)
    as [(out & r & Ht & He) | (out & e & Ht & He)].
  - exists out, r. split; [exact He |].
    apply praat_try_ret in Ht.
    destruct Ht as (sound & pitch & f0s & formant & f1s & f2s & js &
                    Hs & Hp & Hf0 & _ & Hfv & _ & ->).
    destruct (pitch_f0_values_spec L pitch _ Hf0) as [Hpos _].
    destruct (formant_values_spec L formant _ Hfv) as [P1 P2].
    cbn [f0_mean f0_range f1 f2].
    split; [| split; [| split; now apply mean_or_zero_nonneg]].
    + unfold f0_stats. destruct (_ <? _)%nat; cbn [fst]; [| lra].
      apply np_mean_nonneg. eapply Forall_impl; [| exact Hpos].
      cbn. intros. lra.
    + unfold f0_stats. destruct (_ <? _)%nat eqn:E; cbn [snd]; [| lra].
      destruct f0s as [| v f0s']; [discriminate |].
      pose proof (fold_left_Rmin_le f0s' v) as [Hmin _].
      pose proof (fold_left_Rmax_ge f0s' v) as [Hmax _].
      cbn [np_max np_min]. lra.
  - eexists _, _. split; [exact He |]. cbn. repeat split; lra.
Qed.

(** X11: the Praat extraction never raises, and the record it returns is
    consistent: [f0_mean], [f0_range], [f1] and [f2] are non-negative,
    [f0_mean] is 0 exactly when [speech_rate] is 0, and then [f0_range] is
    0 too. *)
Theorem praat_record_consistent (L : Libs) (samples : list R) (sr : Z) :
  exists out r,
    extract_praat_features L samples sr = (out, Ret r) /\
    0 <= f0_mean r /\ 0 <= f0_range r /\ 0 <= f1 r /\ 0 <= f2 r /\
    (f0_mean r = 0 <-> speech_rate r = 0) /\
    (f0_mean r = 0 -> f0_range r = 0).
Proof.
  destruct (extract_praat_features_cases L samples sr)
    as [(out & r & Ht & He) | (out & e & Ht & He)].
  - exists out, r. split; [exact He |].
    apply praat_try_ret in Ht.
    destruct Ht as (sound & pitch & f0s & formant & f1s & f2s & js &
                    Hs & Hp & Hf0 & _ & Hfv & _ & ->).
    destruct (pitch_f0_values_spec L pitch _ Hf0) as [Hpos _].
    destruct (formant_values_spec L formant _ Hfv) as [P1 P2].
    cbn [f0_mean f0_range f1 f2 speech_rate].
    assert (Hf1 : 0 <= mean_or_zero f1s) by now apply mean_or_zero_nonneg.
    assert (Hf2 : 0 <= mean_or_zero f2s) by now apply mean_or_zero_nonneg.
    destruct f0s as [| v f0s'].
    + cbn. repeat split; try lra; try assumption; intros; reflexivity.
    + set (l := v :: f0s') in *.
      assert (Hne : l <> []) by discriminate.
      assert (E : f0_stats l = (np_mean l, np_max l - np_min l))
        by reflexivity.
      rewrite E. cbn [fst snd].
      pose proof (np_min_le_all l) as Hmin.
      pose proof (np_max_ge_all l) as Hmax.
      assert (Hminpos : 0 < np_min l).
      { unfold l. cbn [np_min]. inversion Hpos; subst.
        now apply fold_left_Rmin_pos. }
      pose proof (np_mean_lower_bound Hne Hmin) as Hlo.
      pose proof (np_mean_upper_bound Hne Hmax) as Hhi.
      assert (H0 : (0 <? length l)%nat = true) by reflexivity.
      rewrite H0.
      match goal with
      | |- context [py_max 80 (py_min 200 ?v)] =>
          pose proof (clamp_bounds v) as Hc
      end.
      repeat split; try lra; try assumption; intros; lra.
  - eexists _, _. split; [exact He |]. cbn.
    repeat split; try lra; intros; reflexivity.
Qed.

(** ** Failures inside the Praat extraction *)

Lemma perturbation_try_raises (L : Libs) (sound : Sound L) (d : R)
    (e : string) :
  to_point_process L sound 50 600 = Raise e \/
  (exists pp,
     to_point_process L sound 50 600 = Ret pp /\
     point_process_bool L pp = true /\
     get_number_of_points L pp = Raise e) ->
  perturbation L sound d =
  ([Printed ("Warning: Could not extract jitter/shimmer: " ++ e)],
   Ret (0, 0)).
Proof.
  unfold perturbation, try_except, call, perturbation_try.
  intros [H | (pp & H & Hb & Hn)]; rewrite H; cbn [exc_bind].
  - reflexivity.
  - rewrite Hb, Hn. reflexivity.
Qed.

(** X12: a failure while the pulse train is built or counted stays inside
    the perturbation step: once the pitch and formant tracks are obtained,
    the extraction prints one warning and returns the pitch, formant and
    speech-rate values as computed, with [jitter] and [shimmer] 0. *)
Theorem perturbation_failure_is_local (L : Libs) (samples : list R) (sr : Z)
    (sound : Sound L) (formant : Formant L) (f0_values f1_values f2_values
    : list R) (e : string) :
  new_Sound L samples sr = Ret sound ->
  voiced_frames L samples sr = Ret f0_values ->
  to_formant_burg L sound 0.01 5 5500 = Ret formant ->
  formant_values L formant (duration L sound) = Ret (f1_values, f2_values) ->
  (to_point_process L sound 50 600 = Raise e \/
   exists pp,
     to_point_process L sound 50 600 = Ret pp /\
     point_process_bool L pp = true /\
     get_number_of_points L pp = Raise e) ->
  exists rate,
    estimate_speech_rate (length f0_values) (duration L sound)
      = ([], Ret rate) /\
    extract_praat_features L samples sr =
    ([Printed ("Warning: Could not extract jitter/shimmer: " ++ e)],
     Ret {| f0_mean := fst (f0_stats f0_values);
            f0_range := snd (f0_stats f0_values);
            jitter := 0; shimmer := 0;
            f1 := mean_or_zero f1_values; f2 := mean_or_zero f2_values;
            speech_rate := rate |}).
Proof.
  intros Hs Hv Hfm Hfv Hpp.
  eexists. split; [apply estimate_speech_rate_returns |].
  unfold voiced_frames in Hv. rewrite Hs in Hv. cbn [exc_bind] in Hv.
  destruct (to_pitch_ac L sound 0.01 50 600) as [pitch | e'] eqn:Hp;
    cbn [exc_bind] in Hv; [| discriminate].
  unfold extract_praat_features, praat_try, call. cbv zeta.
  rewrite Hs. cbn [py_bind]. rewrite Hp. cbn [py_bind].
  rewrite Hv. cbn [py_bind].
  destruct (f0_stats f0_values) as [m rg].
  rewrite Hfm. cbn [py_bind]. rewrite Hfv. cbn [py_bind].
  rewrite (perturbation_try_raises L sound (duration L sound) Hpp).
  cbn [py_bind]. rewrite estimate_speech_rate_returns.
  reflexivity.
Qed.

(** X13: the outer handler is all or nothing: when the formant analysis
    raises after the pitch track was obtained, the extraction prints one
    error line and returns the all-zero defaults, so [f0_mean] is reported
    as 0 whatever the voiced frames were. *)
Theorem formant_failure_discards_pitch (L : Libs) (samples : list R) (sr : Z)
    (sound : Sound L) (f0_values : list R) (e : string) :
  new_Sound L samples sr = Ret sound ->
  voiced_frames L samples sr = Ret f0_values ->
  (to_formant_burg L sound 0.01 5 5500 = Raise e \/
   exists formant,
     to_formant_burg L sound 0.01 5 5500 = Ret formant /\
     formant_values L formant (duration L sound) = Raise e) ->
  extract_praat_features L samples sr =
  ([Printed ("Error in Praat extraction: " ++ e)], Ret praat_defaults).
Proof.
  intros Hs Hv Hf.
  unfold voiced_frames in Hv. rewrite Hs in Hv. cbn [exc_bind] in Hv.
  destruct (to_pitch_ac L sound 0.01 50 600) as [pitch | e'] eqn:Hp;
    cbn [exc_bind] in Hv; [| discriminate].
  unfold extract_praat_features, praat_try, call. cbv zeta.
  rewrite Hs. cbn [py_bind]. rewrite Hp. cbn [py_bind].
  rewrite Hv. cbn [py_bind].
  destruct (f0_stats f0_values) as [m rg].
  destruct Hf as [Hf | (formant & Hf & Hfv)]; rewrite Hf; cbn [py_bind].
  - reflexivity.
  - rewrite Hfv. reflexivity.
Qed.

Section ScriptedRuns.

Variables (fr ppr : exc unit) (n : Z) (j s : exc R).

Lemma scripted_voiced_frames :
  voiced_frames (scripted_libs (Some 120) fr ppr n j s) [0] 16000
  = Ret [120].
Proof.
  unfold voiced_frames. cbn [scripted_libs new_Sound exc_bind
    to_pitch_ac duration fst snd length INR].
  unfold pitch_f0_values. cbn [scripted_libs pitch_bool].
  rewrite np_arange_one_frame. cbn.
  destruct (Rlt_dec 0 120); [reflexivity | lra].
Qed.

Lemma scripted_formant_loop (f0 : option R) (ts a1 a2 : list R) :
  formant_loop (scripted_libs f0 fr ppr n j s) tt ts a1 a2 = Ret (a1, a2).
Proof.
  revert a1 a2. induction ts as [| t ts IH]; intros a1 a2; cbn; auto.
Qed.

Lemma scripted_formant_values (f0 : option R) (d : R) :
  formant_values (scripted_libs f0 fr ppr n j s) tt d = Ret ([], []).
Proof.
  unfold formant_values. cbn [scripted_libs formant_bool].
  apply scripted_formant_loop.
Qed.

End ScriptedRuns.

Lemma perturbation_failure_is_local_witness :
  let L := scripted_libs (Some 120) (Ret tt) (Raise "no pulses") 0
             (Ret 0) (Ret 0) in
  new_Sound L [0] 16000 = Ret ([0], 16000%Z) /\
  voiced_frames L [0] 16000 = Ret [120] /\
  to_formant_burg L ([0], 16000%Z) 0.01 5 5500 = Ret tt /\
  formant_values L tt (duration L ([0], 16000%Z)) = Ret ([], []) /\
  exists rate,
    estimate_speech_rate (length [120]) (duration L ([0], 16000%Z))
      = ([], Ret rate) /\
    extract_praat_features L [0] 16000 =
    ([Printed "Warning: Could not extract jitter/shimmer: no pulses"],
     Ret {| f0_mean := fst (f0_stats [120]);
            f0_range := snd (f0_stats [120]);
            jitter := 0; shimmer := 0;
            f1 := mean_or_zero []; f2 := mean_or_zero [];
            speech_rate := rate |}).
Proof.
  cbv zeta.
  split; [reflexivity |].
  split; [apply scripted_voiced_frames |].
  split; [reflexivity |].
  split; [apply scripted_formant_values |].
  apply (@perturbation_failure_is_local
           (scripted_libs (Some 120) (Ret tt) (Raise "no pulses") 0
              (Ret 0) (Ret 0))
           [0] 16000 ([0], 16000%Z) tt [120] [] [] "no pulses").
  - reflexivity.
  - apply scripted_voiced_frames.
  - reflexivity.
  - apply scripted_formant_values.
  - left. reflexivity.
Defined.

Lemma formant_failure_discards_pitch_witness :
  let L := scripted_libs (Some 120) (Raise "LPC failed") (Ret tt) 3
             (Ret 0.01) (Ret 0.05) in
  new_Sound L [0] 16000 = Ret ([0], 16000%Z) /\
  voiced_frames L [0] 16000 = Ret [120] /\
  extract_praat_features L [0] 16000 =
  ([Printed "Error in Praat extraction: LPC failed"], Ret praat_defaults).
Proof.
  cbv zeta.
  split; [reflexivity |].
  split; [apply scripted_voiced_frames |].
  apply (@formant_failure_discards_pitch
           (scripted_libs (Some 120) (Raise "LPC failed") (Ret tt) 3
              (Ret 0.01) (Ret 0.05))
           [0] 16000 ([0], 16000%Z) [120] "LPC failed").
  - reflexivity.
  - apply scripted_voiced_frames.
  - left. reflexivity.
Defined.

(** ** The route as a whole *)

(** The answer to a non-empty upload, with what is printed. *)
Lemma extract_features_exact (L : Libs) (data : list byte) :
  data <> [] ->
  extract_features L (Some data) =
  match np_frombuffer (skipn header_size data) with
  | Raise e =>
      ([Printed ("Error in extract_features: " ++ e); PrintedTraceback],
       Ret (Error 500 e))
  | Ret raw =>
      let samples := decode_samples raw in
      match compute_basic_features L samples 16000 with
      | Raise e =>
          ([Printed ("Error in extract_features: " ++ e); PrintedTraceback],
           Ret (Error 500 e))
      | Ret basic =>
          let mfcc := compute_mfcc L samples 16000 13 in
          match extract_praat_features L samples 16000 with
          | (out', Ret praat) =>
              (out' ++ [PrintedReport basic mfcc praat (length samples)],
               Ret (Features {| basic_part := basic; mfcc := mfcc;
                                praat_part := praat |}))
          | (out', Raise e) =>
              (out' ++ [Printed ("Error in extract_features: " ++ e);
                        PrintedTraceback],
               Ret (Error 500 e))
          end
      end
  end.
Proof.
  intros Hne. unfold extract_features.
  destruct data as [| b data']; [congruence |]. cbn [length Nat.eqb].
  unfold extract_features_try. cbv zeta.
  destruct (np_frombuffer (skipn header_size (b :: data'))) as [raw | e];
    [| reflexivity].
  cbn [call py_bind].
  destruct (compute_basic_features L (decode_samples raw) 16000)
    as [basic | e]; [| reflexivity].
  destruct (extract_praat_features L (decode_samples raw) 16000)
    as [out' [praat | e]]; reflexivity.
Qed.

(** X15: every request is answered, and in exactly one of three ways.
    Status 400 with nothing printed, when the upload is missing or has no
    byte.  Status 500 with the error text, after printing the error line
    and the traceback and nothing else, when the post-header bytes do not
    decode or the basic analysis raises.  Or a feature record, after a
    single report that is the last thing printed, assembled from the three
    extractors run on the decoded samples. *)
Theorem route_outcomes (L : Libs) (file : option (list byte)) :
  exists out resp,
    extract_features L file = (out, Ret resp) /\
    match resp with
    | Error status msg =>
        (status = 400%Z /\ out = [] /\ (file = None \/ file = Some [])) \/
        (status = 500%Z /\
         out = [Printed ("Error in extract_features: " ++ msg);
                PrintedTraceback] /\
         exists data,
           file = Some data /\ data <> [] /\
           (np_frombuffer (skipn header_size data) = Raise msg \/
            exists raw,
              np_frombuffer (skipn header_size data) = Ret raw /\
              compute_basic_features L (decode_samples raw) 16000
                = Raise msg))
    | Features r =>
        exists data raw out',
          file = Some data /\ data <> [] /\
          np_frombuffer (skipn header_size data) = Ret raw /\
          compute_basic_features L (decode_samples raw) 16000
            = Ret (basic_part r) /\
          mfcc r = compute_mfcc L (decode_samples raw) 16000 13 /\
          extract_praat_features L (decode_samples raw) 16000
            = (out', Ret (praat_part r)) /\
          out = out' ++ [PrintedReport (basic_part r) (mfcc r) (praat_part r)
                           (length (decode_samples raw))]
    end.
Proof.
  destruct file as [data |].
  - destruct data as [| b data'].
    + eexists _, _. split; [reflexivity |]. left. auto.
    + assert (Hne : b :: data' <> []) by discriminate.
      rewrite (extract_features_exact L Hne).
      destruct (np_frombuffer (skipn header_size (b :: data')))
        as [raw | e] eqn:Hraw.
      * cbv zeta.
        destruct (compute_basic_features L (decode_samples raw) 16000)
          as [basic | e] eqn:Hb.
        -- destruct (extract_praat_features_returns L (decode_samples raw)
                       16000) as (out' & praat & Hp).
           rewrite Hp. eexists _, _. split; [reflexivity |].
           exists (b :: data'), raw, out'. cbn [basic_part mfcc praat_part].
           repeat split; try assumption; reflexivity.
        -- eexists _, _. split; [reflexivity |]. right.
           split; [reflexivity |]. split; [reflexivity |].
           exists (b :: data'). split; [reflexivity |].
           split; [exact Hne |]. right. exists raw. now split.
      * eexists _, _. split; [reflexivity |]. right.
        split; [reflexivity |]. split; [reflexivity |].
        exists (b :: data'). split; [reflexivity |].
        split; [exact Hne |]. now left.
  - eexists _, _. split; [reflexivity |]. left. auto.
Qed.

Lemma decode_samples_abs (raw : list Z) :
  Forall (fun v => (-32768 <= v <= 32767)%Z) raw ->
  Forall (fun s => Rabs s <= 1) (decode_samples raw).
Proof.
  intros H. apply decode_samples_range in H.
  eapply Forall_impl; [| exact H]. cbn. intros v [Hlo Hhi].
  unfold Rabs. destruct (Rcase_abs v); lra.
Qed.

(** X16: every feature record the route returns is within range: [rms]
    and [zcr] lie in [0, 1], [spectralFlatness] is non-negative ([np.exp]
    returning no negative number), [mfcc] holds 13 non-negative values,
    [f0_mean], [f0_range], [f1] and [f2] are non-negative, and
    [speech_rate] is 0 or within [80, 200]. *)
Theorem returned_record_in_range (L : Libs) (file : option (list byte))
    (out : list Event) (r : FeatureRecord) :
  exp_nonnegative L ->
  extract_features L file = (out, Ret (Features r)) ->
  0 <= rms (basic_part r) <= 1 /\
  0 <= zcr (basic_part r) <= 1 /\
  0 <= spectralFlatness (basic_part r) /\
  length (mfcc r) = 13%nat /\
  Forall (fun c => 0 <= c) (mfcc r) /\
  0 <= f0_mean (praat_part r) /\
  0 <= f0_range (praat_part r) /\
  0 <= f1 (praat_part r) /\
  0 <= f2 (praat_part r) /\
  (speech_rate (praat_part r) = 0 \/ 80 <= speech_rate (praat_part r) <= 200).
Proof.
  intros Hexp H. destruct file as [data |]; [| discriminate].
  destruct data as [| b data']; [discriminate |].
  assert (Hne : b :: data' <> []) by discriminate.
  rewrite (extract_features_exact L Hne) in H.
  unfold np_frombuffer in H.
  destruct (Nat.odd (length (skipn header_size (b :: data'))));
    [discriminate |].
  set (raw := int16_pairs (skipn header_size (b :: data'))) in *.
  cbv zeta in H.
  destruct (compute_basic_features L (decode_samples raw) 16000)
    as [basic | e] eqn:Hb; [| discriminate].
  destruct (praat_record_nonneg L (decode_samples raw) 16000)
    as (out' & praat & Hp & Hm & Hr & Hf1 & Hf2).
  rewrite Hp in H. injection H as _ <-.
  cbn [basic_part mfcc praat_part].
  pose proof (decode_samples_abs (int16_pairs_range
                (skipn header_size (b :: data')))) as Habs.
  fold raw in Habs.
  destruct (rms_range L _ _ Hb) as (Hr0 & Hr1).
  pose proof (zcr_range L _ _ Hb) as Hz.
  pose proof (@flatness_nonneg L _ _ _ Hexp Hb) as Hfl.
  pose proof (compute_mfcc_length L (decode_samples raw) 16000 13) as Hlen.
  pose proof (compute_mfcc_nonneg L (decode_samples raw) 16000 13) as Hnn.
  split; [split; [exact Hr0 | apply Hr1; [lra | exact Habs]] |].
  split; [exact Hz |]. split; [exact Hfl |].
  split; [exact Hlen |]. split; [exact Hnn |].
  split; [exact Hm |]. split; [exact Hr |].
  split; [exact Hf1 |]. split; [exact Hf2 |].
  (* the speech rate is 0 or clamped *)
  destruct (extract_praat_features_cases L (decode_samples raw) 16000)
    as [(o & r' & Ht & He) | (o & e & Ht & He)];
    rewrite He in Hp; injection Hp as _ <-.
  - destruct (speech_rate_of_run L _ _ Ht)
      as (sound & f0s & _ & _ & Hzero & Hpos).
    destruct f0s as [| v f0s']; [left; now apply Hzero |].
    right. apply Hpos. discriminate.
  - left. reflexivity.
Qed.

Lemma returned_record_in_range_witness :
  exp_nonnegative quiet_libs /\
  exists out r,
    extract_features quiet_libs (Some (wav_header ++ [x00; x40]))
      = (out, Ret (Features r)) /\
    0 <= rms (basic_part r) <= 1 /\
    0 <= zcr (basic_part r) <= 1 /\
    0 <= spectralFlatness (basic_part r) /\
    length (mfcc r) = 13%nat /\
    Forall (fun c => 0 <= c) (mfcc r) /\
    0 <= f0_mean (praat_part r) /\
    0 <= f0_range (praat_part r) /\
    0 <= f1 (praat_part r) /\
    0 <= f2 (praat_part r) /\
    (speech_rate (praat_part r) = 0 \/
     80 <= speech_rate (praat_part r) <= 200).
Proof.
  assert (Hexp : exp_nonnegative quiet_libs).
  { intros y. left. apply exp_pos. }
  split; [exact Hexp |].
  assert (Hne : wav_header ++ [x00; x40] <> []) by discriminate.
  pose proof (extract_features_cases quiet_libs Hne) as H.
  change (np_frombuffer (skipn header_size (wav_header ++ [x00; x40])))
    with (Ret (A := list Z) [16384%Z]) in H.
  cbv beta iota zeta in H.
  destruct (@basic_returns_on_example (decode_samples [16384%Z]))
    as [b Hb]; [discriminate |].
  rewrite Hb in H. destruct H as (out & out' & praat & _ & E).
  eexists out, _. split; [exact E |].
  exact (@returned_record_in_range quiet_libs _ out _ Hexp E).
Defined.

(* ------------------------------------------------------------------ *)
(** ** The CORS origins *)

Example allowed_origins_examples :
  allowed_origins None = inl "*"%string /\
  allowed_origins (Some "*"%string) = inl "*"%string /\
  allowed_origins (Some "https://a.app, https://b.app "%string) =
    inr ["https://a.app"; "https://b.app"]%string /\
  allowed_origins (Some ""%string) = inr [""%string] /\
  allowed_origins (Some " * "%string) = inr ["*"%string].
Proof. repeat split. Qed.

Lemma split_nonempty (sep : Ascii.ascii) (s : string) : split sep s <> [].
Proof.
  destruct s as [| c s']; cbn; [discriminate |].
  destruct (Ascii.eqb c sep); [discriminate |].
  destruct (split sep s'); discriminate.
Qed.

Lemma split_length (sep : Ascii.ascii) (s : string) :
  length (split sep s) = S (count_char sep s).
Proof.
  induction s as [| c s' IH]; [reflexivity |]. cbn.
  destruct (Ascii.eqb c sep); cbn; [now rewrite IH |].
  destruct (split sep s') as [| part parts] eqn:E; [| exact IH].
  now destruct (split_nonempty sep s').
Qed.

Lemma split_no_separator (sep : Ascii.ascii) (s : string) :
  Forall (fun part => count_char sep part = 0%nat) (split sep s).
Proof.
  induction s as [| c s' IH]; cbn; [repeat constructor |].
  destruct (Ascii.eqb c sep) eqn:Ec; [now constructor |].
  destruct (split sep s') as [| part parts].
  - repeat constructor. cbn. now rewrite Ec.
  - inversion IH; subst. constructor; [| assumption].
    cbn. now rewrite Ec.
Qed.

(** Joining the parts with the separator gives the string back. *)
Lemma concat_split (sep : Ascii.ascii) (s : string) :
  String.concat (String sep EmptyString) (split sep s) = s.
Proof.
  induction s as [| c s' IH]; [reflexivity |]. cbn [split].
  destruct (Ascii.eqb_spec c sep) as [-> | Hc].
  - pose proof (split_nonempty sep s') as Hne.
    destruct (split sep s') as [| part parts]; [congruence |].
    cbn [String.concat append] in *. now rewrite IH.
  - pose proof (split_nonempty sep s') as Hne.
    destruct (split sep s') as [| part parts]; [congruence |].
    destruct parts as [| part' parts'];
      cbn [String.concat append] in *; now rewrite IH.
Qed.

Lemma lstrip_first (s : string) : is_space_opt (first_char (lstrip s)) = false.
Proof.
  induction s as [| c s' IH]; [reflexivity |]. cbn [lstrip].
  destruct (is_space c) eqn:E; [exact IH | cbn; exact E].
Qed.

Lemma rstrip_last (s : string) : is_space_opt (last_char (rstrip s)) = false.
Proof.
  induction s as [| c s' IH]; [reflexivity |]. cbn [rstrip].
  destruct (rstrip s') as [| c' r] eqn:E.
  - destruct (is_space c) eqn:Ec; [reflexivity | cbn; exact Ec].
  - exact IH.
Qed.

Lemma rstrip_first (s : string) :
  is_space_opt (first_char s) = false ->
  is_space_opt (first_char (rstrip s)) = false.
Proof.
  destruct s as [| c s']; [reflexivity |]. cbn [first_char is_space_opt rstrip].
  intros Hc. destruct (rstrip s'); [rewrite Hc |]; cbn; assumption.
Qed.

Lemma rstrip_count (a : Ascii.ascii) (s : string) :
  (count_char a (rstrip s) <= count_char a s)%nat.
Proof.
  induction s as [| c s' IH]; [reflexivity |]. cbn [rstrip].
  destruct (rstrip s') as [| c' r].
  - destruct (is_space c); cbn in *; lia.
  - cbn [count_char] in *. lia.
Qed.

Lemma lstrip_count (a : Ascii.ascii) (s : string) :
  (count_char a (lstrip s) <= count_char a s)%nat.
Proof.
  induction s as [| c s' IH]; [reflexivity |]. cbn [lstrip].
  destruct (is_space c); cbn [count_char]; lia.
Qed.

Lemma strip_spec (s : string) :
  is_space_opt (first_char (strip s)) = false /\
  is_space_opt (last_char (strip s)) = false /\
  forall a, (count_char a (strip s) <= count_char a s)%nat.
Proof.
  unfold strip. split; [apply rstrip_first, lstrip_first |].
  split; [apply rstrip_last |].
  intros a. etransitivity; [apply rstrip_count | apply lstrip_count].
Qed.

Lemma lstrip_cut (s : string) :
  exists before, s = (before ++ lstrip s)%string /\ all_space before = true.
Proof.
  induction s as [| c s' (before & IH & Hb)].
  - exists EmptyString. now split.
  - cbn [lstrip]. destruct (is_space c) eqn:Hc.
    + exists (String c before). cbn [String.append all_space].
      rewrite Hc, Hb. split; [now rewrite <- IH | reflexivity].
    + exists EmptyString. now split.
Qed.

Lemma rstrip_cut (s : string) :
  exists after, s = (rstrip s ++ after)%string /\ all_space after = true.
Proof.
  induction s as [| c s' (after & IH & Ha)].
  - exists EmptyString. now split.
  - cbn [rstrip]. destruct (rstrip s') as [| c' r] eqn:E.
    + cbn [String.append] in IH. subst after.
      destruct (is_space c) eqn:Hc.
      * exists (String c s'). cbn [String.append all_space].
        rewrite Hc, Ha. now split.
      * exists s'. now split.
    + exists after. cbn [String.append] in *. split; [now rewrite <- IH |].
      exact Ha.
Qed.

(** [strip] cuts whitespace, and only whitespace, off both ends. *)
Lemma strip_stripped (s : string) : stripped_of s (strip s).
Proof.
  destruct (lstrip_cut s) as (before & Hs & Hb).
  destruct (rstrip_cut (lstrip s)) as (after & Hl & Ha).
  destruct (strip_spec s) as (Hfirst & Hlast & _).
  exists before, after. unfold strip in *.
  split; [now rewrite <- Hl |]. now repeat split.
Qed.

(** What is left of a string once whitespace is cut off both ends is
    determined by the string. *)
Lemma all_space_lstrip (before rest : string) :
  all_space before = true ->
  is_space_opt (first_char rest) = false ->
  lstrip (before ++ rest) = lstrip rest.
Proof.
  intros Hb Hr. induction before as [| c before IH]; [reflexivity |].
  cbn [all_space] in Hb. apply andb_prop in Hb. destruct Hb as [Hc Hb].
  cbn [String.append lstrip]. rewrite Hc. now apply IH.
Qed.

Lemma lstrip_fixed (s : string) :
  is_space_opt (first_char s) = false -> lstrip s = s.
Proof.
  destruct s as [| c s']; [reflexivity |]. cbn. now intros ->.
Qed.

Lemma rstrip_all_space (s : string) :
  all_space s = true -> rstrip s = EmptyString.
Proof.
  induction s as [| c s' IH]; [reflexivity |].
  cbn [all_space rstrip]. intros H. apply andb_prop in H.
  destruct H as [Hc Hs]. now rewrite (IH Hs), Hc.
Qed.

Lemma rstrip_app (origin after : string) :
  all_space after = true ->
  is_space_opt (last_char origin) = false ->
  rstrip (origin ++ after) = origin.
Proof.
  intros Ha. induction origin as [| c origin IH]; intros Hl.
  - cbn [String.append]. now apply rstrip_all_space.
  - cbn [String.append rstrip].
    destruct origin as [| c' origin'].
    + cbn [String.append]. rewrite (rstrip_all_space _ Ha).
      cbn in Hl. now rewrite Hl.
    + rewrite IH by exact Hl. reflexivity.
Qed.

Lemma stripped_of_unique (part origin : string) :
  stripped_of part origin -> origin = strip part.
Proof.
  intros (before & after & -> & Hb & Ha & Hfirst & Hlast).
  unfold strip.
  destruct origin as [| c origin'].
  - cbn [String.append].
    assert (Hall : all_space (before ++ after) = true).
    { clear -Hb Ha. induction before as [| c before IH]; [exact Ha |].
      cbn [all_space String.append] in *. apply andb_prop in Hb.
      destruct Hb as [-> Hb]. now apply IH. }
    assert (Hl : lstrip (before ++ after) = EmptyString).
    { clear -Hall. induction (before ++ after)%string as [| c s IH];
        [reflexivity |].
      cbn [all_space lstrip] in *. apply andb_prop in Hall.
      destruct Hall as [-> Hs]. now apply IH. }
    now rewrite Hl.
  - rewrite all_space_lstrip; [| exact Hb | exact Hfirst].
    rewrite lstrip_fixed by exact Hfirst.
    symmetry. now apply rstrip_app.
Qed.

(** X17: the CORS origins are the string ["*"] exactly when
    [ALLOWED_ORIGINS] is unset or is ["*"]; otherwise they are a list with
    one entry per comma-separated part of the variable (one more than it
    has commas): the parts hold no comma and joined by commas give the
    variable, and each entry is its part without the leading and trailing
    whitespace, which determines it.  No entry contains a comma. *)
Theorem allowed_origins_shape (env : option string) :
  match allowed_origins env with
  | inl v => v = "*"%string /\ (env = None \/ env = Some "*"%string)
  | inr origins =>
      exists v parts,
        env = Some v /\ v <> "*"%string /\
        String.concat "," parts = v /\
        Forall (fun part => count_char ","%char part = 0%nat) parts /\
        length origins = S (count_char ","%char v) /\
        Forall2 stripped_of parts origins /\
        (forall origins',
           Forall2 stripped_of parts origins' -> origins' = origins) /\
        Forall (fun o => count_char ","%char o = 0%nat) origins
  end.
Proof.
  unfold allowed_origins. destruct env as [v |]; cbn zeta.
  - destruct (String.eqb_spec v "*") as [-> | Hv]; cbn [negb].
    + split; [reflexivity | now right].
    + exists v, (split ","%char v).
      split; [reflexivity |]. split; [exact Hv |].
      split; [apply (concat_split ","%char) |].
      split; [apply split_no_separator |].
      split; [now rewrite length_map, split_length |].
      split; [| split].
      * induction (split ","%char v) as [| part parts IH]; cbn [map];
          constructor; [apply strip_stripped | exact IH].
      * intros origins' H.
        induction H as [| part origin parts origins' Hpo _ IH];
          [reflexivity |].
        cbn [map]. now rewrite (stripped_of_unique Hpo), IH.
      * apply Forall_map.
        eapply Forall_impl; [| apply (split_no_separator ","%char v)].
        cbn beta. intros part Hpart.
        destruct (strip_spec part) as (_ & _ & Hc).
        specialize (Hc ","%char). lia.
  - cbn. split; [reflexivity | now left].
Qed.

Lemma strip_no_space (s : string) :
  (forall a, is_space a = true -> count_char a s = 0%nat) -> strip s = s.
Proof.
  intros H. unfold strip.
  assert (Hl : forall t, (forall a, is_space a = true ->
                            count_char a t = 0%nat) -> lstrip t = t).
  { intros [| c t'] Ht; [reflexivity |]. cbn [lstrip].
    destruct (is_space c) eqn:E; [| reflexivity].
    specialize (Ht c E). cbn in Ht. rewrite Ascii.eqb_refl in Ht.
    discriminate. }
  rewrite (Hl s H). clear Hl.
  induction s as [| c s' IH]; [reflexivity |]. cbn [rstrip].
  assert (Hc : is_space c = false).
  { destruct (is_space c) eqn:E; [| reflexivity].
    specialize (H c E). cbn in H. rewrite Ascii.eqb_refl in H.
    discriminate. }
  rewrite IH.
  - destruct s'; [now rewrite Hc | reflexivity].
  - intros a Ha. specialize (H a Ha). cbn in H. lia.
Qed.

Lemma split_parts_count (sep a : Ascii.ascii) (s : string) :
  Forall (fun part => (count_char a part <= count_char a s)%nat)
         (split sep s).
Proof.
  induction s as [| c s' IH]; cbn [split]; [repeat constructor |].
  destruct (Ascii.eqb c sep).
  - constructor; [cbn; lia |].
    eapply Forall_impl; [| exact IH]. cbn. intros. lia.
  - destruct (split sep s') as [| part parts].
    + repeat constructor. cbn. lia.
    + inversion IH; subst. constructor; [cbn; lia |].
      eapply Forall_impl; [| eassumption]. cbn. intros. lia.
Qed.

(** X18: when [ALLOWED_ORIGINS] is set to something other than ["*"] and
    holds no whitespace character, nothing is lost: joining the configured
    origins with commas gives the variable back. *)
Theorem allowed_origins_round_trip (v : string) :
  v <> "*"%string ->
  (forall a, is_space a = true -> count_char a v = 0%nat) ->
  exists origins,
    allowed_origins (Some v) = inr origins /\
    String.concat "," origins = v.
Proof.
  intros Hv Hspace. unfold allowed_origins. cbn zeta.
  destruct (String.eqb_spec v "*") as [-> | _]; [congruence |]. cbn [negb].
  eexists. split; [reflexivity |].
  assert (E : map strip (split ","%char v) = split ","%char v).
  { pose proof (split_parts_count ","%char) as Hparts.
    assert (Hall : Forall (fun part => strip part = part) (split ","%char v)).
    { apply Forall_forall. intros part Hin. apply strip_no_space.
      intros a Ha. specialize (Hparts a v).
      rewrite Forall_forall in Hparts. specialize (Hparts part Hin).
      specialize (Hspace a Ha). lia. }
    induction Hall as [| part parts Hp _ IH]; cbn; [reflexivity |].
    now rewrite Hp, IH. }
  rewrite E. apply (concat_split ","%char).
Qed.

Lemma space_free_count (s : string) (a : Ascii.ascii) :
  space_free s = true -> is_space a = true -> count_char a s = 0%nat.
Proof.
  intros Hs Ha. induction s as [| c s' IH]; [reflexivity |].
  cbn [space_free] in Hs. apply andb_prop in Hs. destruct Hs as [Hc Hs'].
  cbn [count_char]. rewrite (IH Hs').
  destruct (Ascii.eqb_spec c a) as [-> | _]; [| reflexivity].
  rewrite Ha in Hc. discriminate.
Qed.

Lemma allowed_origins_round_trip_witness :
  "https://a.app,https://b.app"%string <> "*"%string /\
  (forall a, is_space a = true ->
     count_char a "https://a.app,https://b.app" = 0%nat) /\
  exists origins,
    allowed_origins (Some "https://a.app,https://b.app"%string)
      = inr origins /\
    String.concat "," origins = "https://a.app,https://b.app"%string.
Proof.
  assert (Hs : forall a, is_space a = true ->
                 count_char a "https://a.app,https://b.app" = 0%nat).
  { intros a. apply space_free_count. reflexivity. }
  split; [discriminate |]. split; [exact Hs |].
  apply (@allowed_origins_round_trip "https://a.app,https://b.app");
    [discriminate | exact Hs].
Defined.

(* ------------------------------------------------------------------ *)
(** ** The Stream Chat routes *)

Lemma lower_app (a b : string) :
  lower (a ++ b) = (lower a ++ lower b)%string.
Proof.
  induction a as [| c a IH]; cbn; [reflexivity | now rewrite IH].
Qed.

Lemma prefix_app (n b : string) : String.prefix n (n ++ b) = true.
Proof.
  induction n as [| c n IH]; cbn; [now destruct b |].
  destruct (Ascii.ascii_dec c c) as [_ | Hc]; [exact IH | congruence].
Qed.

Lemma contains_app (n a b : string) : contains n (a ++ n ++ b) = true.
Proof.
  induction a as [| c a IH].
  - cbn [String.append].
    destruct (n ++ b)%string eqn:E; cbn [contains]; rewrite <- E;
      now rewrite prefix_app.
  - cbn [String.append contains]. rewrite IH. apply orb_true_r.
Qed.

(** The test of the [except] block ignores the case of the message and
    where in it the words stand. *)
Lemma already_exists_any_case (pre mid post : string) :
  lower mid = "already exists"%string ->
  contains "already exists" (lower (pre ++ mid ++ post)) = true.
Proof.
  intros Hmid. rewrite !lower_app, Hmid. apply contains_app.
Qed.

Lemma dict_get_truthy (key : string) (d : list (string * pyval)) (v : pyval) :
  dict_get key d = Some v -> truthy (PDict d) = true.
Proof.
  destruct d; [discriminate | reflexivity].
Qed.

Local Open Scope string_scope.

(** X19: the token route always answers: no exception leaves the view,
    whatever the request body and whatever the Stream service does.  The
    answer is 400, 500 or 200.  With a 400 the service was not contacted.
    With a 500 the body carries the text of the exception and the calls
    stopped at the one that raised.  A 200 is given only for a dict body
    holding the key userId, after an update_user call and then a
    create_token call that both returned, and it carries the token that
    create_token returned. *)
Theorem token_route_outcomes (R : PyRuntime) (S : StreamClient)
    (request_json : exc pyval) (h : list Call) :
  exists status body calls,
    generate_stream_token R S request_json h
      = ((h ++ calls)%list, Ret (Json status body)) /\
    ((status = 400%Z /\ calls = [] /\
      body = [("error", PStr "userId is required")] /\
      exists data, request_json = Ret data /\
        (truthy data = false \/ py_in R "userId" data = Ret false))
     \/
     (status = 500%Z /\
      exists e, body = [("error", PStr e)] /\
        ((calls = [] /\
          (request_json = Raise e \/
           exists data, request_json = Ret data /\
             (py_in R "userId" data = Raise e \/
              py_index R data "userId" = Raise e)))
         \/ (exists u, calls = [UpdateUser u] /\ S h (UpdateUser u) = Raise e)
         \/ (exists u i, calls = [UpdateUser u; CreateToken i] /\
               S (h ++ [UpdateUser u])%list (CreateToken i) = Raise e)))
     \/
     (status = 200%Z /\
      exists d userId token,
        let userName :=
          match dict_get "userName" d with
          | Some v => v
          | None => PStr ("User " ++ py_str R userId)
          end in
        let user := UpdateUser
          [("id", userId); ("name", userName);
           ("role", PStr (if py_eq_str userId "9999" then "admin"
                          else "user"))] in
        request_json = Ret (PDict d) /\
        dict_get "userId" d = Some userId /\
        calls = [user; CreateToken userId] /\
        (exists r, S h user = Ret r) /\
        S (h ++ [user])%list (CreateToken userId) = Ret token /\
        body = [("token", token); ("userId", userId);
                ("userName", userName)])).
Proof.
  unfold generate_stream_token, sc_try.
  destruct request_json as [data | e].
  2:{ exists 500%Z, [("error", PStr e)], []. rewrite app_nil_r.
      split; [reflexivity |]. right; left. split; [reflexivity |].
      exists e. split; [reflexivity |]. left. split; [reflexivity |].
      now left. }
  unfold sc_bind at 1. cbn [sc_lift].
  destruct (truthy data) eqn:Htruthy; cbn [negb].
  2:{ exists 400%Z, [("error", PStr "userId is required")], [].
      rewrite app_nil_r. split; [reflexivity |]. left.
      repeat split. exists data. split; [reflexivity | now left]. }
  unfold sc_bind at 1. unfold sc_bind at 1. cbn [sc_lift].
  destruct (py_in R "userId" data) as [present | e] eqn:Hin.
  2:{ exists 500%Z, [("error", PStr e)], []. rewrite app_nil_r.
      split; [reflexivity |]. right; left. split; [reflexivity |].
      exists e. split; [reflexivity |]. left. split; [reflexivity |].
      right. exists data. split; [reflexivity | now left]. }
  cbn [sc_ret]. destruct present; cbn [negb].
  2:{ exists 400%Z, [("error", PStr "userId is required")], [].
      rewrite app_nil_r. split; [reflexivity |]. left.
      repeat split. exists data. split; [reflexivity | now right]. }
  unfold sc_bind at 1. cbn [sc_lift].
  destruct (py_index R data "userId") as [userId | e] eqn:Hindex.
  2:{ exists 500%Z, [("error", PStr e)], []. rewrite app_nil_r.
      split; [reflexivity |]. right; left. split; [reflexivity |].
      exists e. split; [reflexivity |]. left. split; [reflexivity |].
      right. exists data. split; [reflexivity | now right]. }
  assert (Hdict : exists d, data = PDict d /\ dict_get "userId" d = Some userId).
  { destruct data as [| b | z | nz t | s | l | d]; try discriminate Hindex.
    exists d. split; [reflexivity |]. cbn [py_index] in Hindex.
    destruct (dict_get "userId" d); [congruence | discriminate]. }
  destruct Hdict as (d & -> & Hid).
  unfold sc_bind at 1. cbn [sc_lift py_get]. cbv zeta.
  set (userName := match dict_get "userName" d with
                   | Some v => v
                   | None => PStr ("User " ++ py_str R userId)
                   end).
  set (fields := [("id", userId); ("name", userName); _]).
  set (user := UpdateUser fields).
  unfold sc_bind at 1. unfold sc_call at 1.
  destruct (S h user) as [r | e] eqn:Hupdate.
  2:{ exists 500%Z, [("error", PStr e)], [user].
      split; [reflexivity |]. right; left. split; [reflexivity |].
      exists e. split; [reflexivity |]. right; left.
      exists fields. now split. }
  unfold sc_bind at 1. unfold sc_call at 1.
  destruct (S (h ++ [user])%list (CreateToken userId)) as [token | e]
    eqn:Htoken.
  2:{ exists 500%Z, [("error", PStr e)], [user; CreateToken userId].
      rewrite <- app_assoc. split; [reflexivity |].
      right; left. split; [reflexivity |].
      exists e. split; [reflexivity |]. right; right.
      exists fields, userId. now split. }
  exists 200%Z, [("token", token); ("userId", userId); ("userName", userName)],
    [user; CreateToken userId].
  rewrite <- app_assoc. split; [reflexivity |].
  right; right. split; [reflexivity |].
  exists d, userId, token. cbv zeta. fold userName. fold fields. fold user.
  repeat split; try assumption. now exists r.
Qed.

Lemma py_eq_str_spec (v : pyval) (s : string) :
  py_eq_str v s = true <-> v = PStr s.
Proof.
  destruct v; cbn; try (split; [discriminate | congruence]).
  rewrite String.eqb_eq. split; congruence.
Qed.

(** X20: for a dict body holding userId, the first Stream call upserts
    that user, and the role it sends is "admin" exactly when userId is
    the string "9999"; every other value (the number 9999 included) is
    sent as "user". *)
Theorem token_role (R : PyRuntime) (S : StreamClient)
    (d : list (string * pyval)) (userId : pyval) (h : list Call) :
  dict_get "userId" d = Some userId ->
  exists name role rest,
    fst (generate_stream_token R S (Ret (PDict d)) h)
      = (h ++ UpdateUser [("id", userId); ("name", name);
                          ("role", PStr role)] :: rest)%list /\
    (role = "admin" <-> userId = PStr "9999") /\
    (role = "admin" \/ role = "user").
Proof.
  intros Hid.
  exists (match dict_get "userName" d with
          | Some v => v
          | None => PStr ("User " ++ py_str R userId)
          end),
         (if py_eq_str userId "9999" then "admin" else "user").
  unfold generate_stream_token, sc_try.
  unfold sc_bind at 1. cbn [sc_lift].
  rewrite (dict_get_truthy _ _ Hid). cbn [negb].
  unfold sc_bind at 1. unfold sc_bind at 1. cbn [sc_lift py_in].
  rewrite Hid. cbn [sc_ret negb].
  unfold sc_bind at 1. cbn [sc_lift py_index]. rewrite Hid.
  unfold sc_bind at 1. cbn [sc_lift py_get]. cbv zeta.
  set (user := UpdateUser _).
  assert (Hrole : (if py_eq_str userId "9999" then "admin" else "user")
                    = "admin" <-> userId = PStr "9999").
  { rewrite <- py_eq_str_spec.
    destruct (py_eq_str userId "9999"); split; congruence. }
  assert (Hcases : (if py_eq_str userId "9999" then "admin" else "user")
                     = "admin" \/
                   (if py_eq_str userId "9999" then "admin" else "user")
                     = "user").
  { destruct (py_eq_str userId "9999"); [now left | now right]. }
  unfold sc_bind at 1. unfold sc_call at 1.
  destruct (S h user) as [r | e].
  - unfold sc_bind at 1. unfold sc_call at 1.
    exists [CreateToken userId].
    split; [| split; assumption].
    destruct (S (h ++ [user])%list (CreateToken userId));
      cbn [sc_ret fst]; now rewrite <- app_assoc.
  - exists []. split; [reflexivity | split; assumption].
Qed.

Lemma token_role_witness :
  dict_get "userId" [("userId", PInt 9999)] = Some (PInt 9999) /\
  py_str example_runtime (PInt 9999) = "9999" /\
  exists name role rest,
    fst (generate_stream_token example_runtime accepting_stream
           (Ret (PDict [("userId", PInt 9999)])) [])
      = ([] ++ UpdateUser [("id", PInt 9999); ("name", name);
                           ("role", PStr role)] :: rest)%list /\
    (role = "admin" <-> PInt 9999 = PStr "9999") /\
    (role = "admin" \/ role = "user").
Proof.
  split; [reflexivity |]. split; [reflexivity |].
  apply (@token_role example_runtime accepting_stream
           [("userId", PInt 9999)] (PInt 9999) []).
  reflexivity.
Defined.

Lemma run_calls_cases {A : Type} (S : StreamClient) (calls : list Call)
    (result : A) (h : list Call) :
  run_calls S calls result h = ((h ++ calls)%list, Ret result)
  \/ exists n e,
       (n < length calls)%nat /\
       run_calls S calls result h
         = ((h ++ firstn (n + 1) calls)%list, Raise e) /\
       S (h ++ firstn n calls)%list (nth n calls (CreateToken PNone))
         = Raise e.
Proof.
  revert h. induction calls as [| c rest IH]; intros h.
  - left. cbn. now rewrite app_nil_r.
  - cbn [run_calls]. destruct (S h c) as [r | e] eqn:Hc.
    + destruct (IH (h ++ [c])%list) as [Hok | (n & e & Hn & Hrun & Hfail)].
      * left. now rewrite Hok, <- app_assoc.
      * right. exists (1 + n)%nat, e. cbn [length Nat.add firstn nth].
        rewrite <- app_assoc in Hrun, Hfail.
        repeat split; [lia | exact Hrun | exact Hfail].
    + right. exists 0%nat, e. cbn [length Nat.add firstn nth].
      rewrite app_nil_r. repeat split; [lia | exact Hc].
Qed.

(** How the [try] block of [create_stream_channel] runs once both ids are
    there: the calls are made in order until one raises. *)
Lemma create_channel_try_run (R : PyRuntime) (S : StreamClient)
    (d : list (string * pyval)) (h : list Call) :
  let t := dict_get_or_none "teacherId" d in
  let s := dict_get_or_none "studentId" d in
  truthy t = true -> truthy s = true ->
  create_channel_try R S (PDict d) h
    = run_calls S (channel_calls R t s) (channel_created R t s) h.
Proof.
  intros t s Ht Hs.
  assert (Hd : truthy (PDict d) = true).
  { destruct d; [| reflexivity]. discriminate Ht. }
  unfold create_channel_try. rewrite Hd. cbn [negb].
  unfold sc_bind at 1. cbn [sc_lift py_get].
  unfold sc_bind at 1. cbn [sc_lift py_get].
  fold (dict_get_or_none "teacherId" d). fold (dict_get_or_none "studentId" d).
  fold t. fold s. rewrite Ht, Hs. cbn [negb orb]. cbv zeta.
  unfold channel_calls, channel_created, sc_bind, sc_call, sc_ret.
  cbn [run_calls].
  repeat match goal with
         | |- context [S ?hh ?c] =>
             lazymatch goal with
             | |- context [match S hh c with _ => _ end] =>
                 destruct (S hh c)
             end
         end; reflexivity.
Qed.

(** The [try] block on a body that does not give both ids. *)
Lemma create_channel_try_rejects (R : PyRuntime) (S : StreamClient)
    (d : list (string * pyval)) (h : list Call) :
  truthy (dict_get_or_none "teacherId" d) = false \/
  truthy (dict_get_or_none "studentId" d) = false ->
  exists msg,
    create_channel_try R S (PDict d) h
      = (h, Ret (Json 400 [("error", PStr msg)])).
Proof.
  intros Hmissing. unfold create_channel_try.
  destruct (truthy (PDict d)); cbn [negb]; [| eexists; reflexivity].
  unfold sc_bind at 1. cbn [sc_lift py_get].
  unfold sc_bind at 1. cbn [sc_lift py_get].
  fold (dict_get_or_none "teacherId" d). fold (dict_get_or_none "studentId" d).
  assert (E : negb (truthy (dict_get_or_none "teacherId" d))
              || negb (truthy (dict_get_or_none "studentId" d)) = true).
  { destruct Hmissing as [-> | ->]; cbn; [reflexivity | apply orb_true_r]. }
  rewrite E. eexists; reflexivity.
Qed.

Lemma create_channel_except_dict (R : PyRuntime)
    (d : list (string * pyval)) (e : string) (h : list Call) :
  create_channel_except R (Some (PDict d)) e h
    = (h, Ret (if contains "already exists" (lower e)
               then channel_existed R (dict_get_or_none "teacherId" d)
                                      (dict_get_or_none "studentId" d)
               else Json 500 [("error", PStr e)])).
Proof.
  unfold create_channel_except.
  destruct (contains "already exists" (lower e)); reflexivity.
Qed.

(** X21: when the [try] block of the channel route raises on a dict body,
    the exception came from a Stream call, made after both ids were found,
    and the answer depends on its text alone: a text containing
    "already exists" in any case gives 200 with existed = true and the
    channel id of the two ids, any other text gives 500 with that text.
    Nothing is called after the failing call, so when it is not
    channel.create itself, the channel was never asked for. *)
Theorem channel_failure_handling (R : PyRuntime) (S : StreamClient)
    (d : list (string * pyval)) (h h' : list Call) (e : string) :
  create_channel_try R S (PDict d) h = (h', Raise e) ->
  let t := dict_get_or_none "teacherId" d in
  let s := dict_get_or_none "studentId" d in
  create_stream_channel R S (Ret (PDict d)) h
    = (h', Ret (if contains "already exists" (lower e)
                then channel_existed R t s
                else Json 500 [("error", PStr e)])) /\
  truthy t = true /\ truthy s = true /\
  exists before failing,
    h' = (h ++ before ++ [failing])%list /\
    S (h ++ before)%list failing = Raise e /\
    existsb is_channel_create before = false.
Proof.
  intros Htry t s.
  split.
  { unfold create_stream_channel, sc_try. rewrite Htry.
    apply create_channel_except_dict. }
  destruct (truthy t) eqn:Ht.
  2:{ destruct (@create_channel_try_rejects R S d h (or_introl Ht)) as [m Hm].
      rewrite Hm in Htry. discriminate. }
  destruct (truthy s) eqn:Hs.
  2:{ destruct (@create_channel_try_rejects R S d h (or_intror Hs)) as [m Hm].
      rewrite Hm in Htry. discriminate. }
  split; [reflexivity |]. split; [reflexivity |].
  rewrite (@create_channel_try_run R S d h Ht Hs) in Htry. fold t s in Htry.
  destruct (run_calls_cases S (channel_calls R t s) (channel_created R t s) h)
    as [Hok | (n & e' & Hn & Hrun & Hfail)].
  { rewrite Hok in Htry. discriminate. }
  rewrite Hrun in Htry. injection Htry as Hh He. subst e' h'.
  exists (firstn n (channel_calls R t s)),
         (nth n (channel_calls R t s) (CreateToken PNone)).
  cbn [channel_calls length] in Hn.
  split; [| split; [exact Hfail |]].
  - f_equal.
    destruct n as [| [| [| [| n]]]]; try reflexivity. lia.
  - destruct n as [| [| [| [| n]]]]; try reflexivity. lia.
Qed.

Lemma channel_failure_handling_witness :
  let d := [("teacherId", PStr "9999"); ("studentId", PInt 7)] in
  let e := "Channel ALREADY EXISTS: teacher-9999-student-7" in
  let S := refusing_stream e in
  let R := example_runtime in
  let h' := channel_calls R (PStr "9999") (PInt 7) in
  create_channel_try R S (PDict d) [] = (h', Raise e) /\
  create_stream_channel R S (Ret (PDict d)) []
    = (h', Ret (Json 200 [("channelId", PStr "teacher-9999-student-7");
                          ("success", PBool true);
                          ("existed", PBool true)])).
Proof.
  cbv zeta. split; [reflexivity |].
  exact (proj1 (@channel_failure_handling example_runtime
     (refusing_stream "Channel ALREADY EXISTS: teacher-9999-student-7")
     [("teacherId", PStr "9999"); ("studentId", PInt 7)] []
     (channel_calls example_runtime (PStr "9999") (PInt 7))
     "Channel ALREADY EXISTS: teacher-9999-student-7" eq_refl)).
Defined.

Lemma attribute_error_is_not_already_exists (data : pyval) :
  contains "already exists"
    (lower ("'" ++ type_name data ++ "' object has no attribute 'get'"))
  = false.
Proof.
  destruct data; reflexivity.
Qed.

(** X22: the channel route, over every request and every behaviour of
    the Stream service.  When request.get_json() returns, the view always
    answers, with 400, 500 or 200; Stream is contacted only for a dict
    body whose teacherId and studentId are both truthy, with a non-empty
    prefix of the four calls update_user, update_user, channel, create;
    and every 200 answer carries the channel id of the two ids and
    success = true.  When request.get_json() itself raises, nothing is
    called: the answer is 500 with the text of the exception, unless that
    text contains "already exists", in which case the except block reads
    the unbound data and its exception leaves the view. *)
Theorem channel_route_outcomes (R : PyRuntime) (S : StreamClient)
    (request_json : exc pyval) (h : list Call) :
  match request_json with
  | Raise e =>
      create_stream_channel R S request_json h
        = (h, if contains "already exists" (lower e)
              then Raise (msg_unbound R)
              else Ret (Json 500 [("error", PStr e)]))
  | Ret data =>
      exists status body calls,
        create_stream_channel R S request_json h
          = ((h ++ calls)%list, Ret (Json status body)) /\
        (status = 400 \/ status = 500 \/ status = 200)%Z /\
        (calls = [] \/
         exists d n,
           data = PDict d /\ (1 <= n <= 4)%nat /\
           calls = firstn n (channel_calls R
                               (dict_get_or_none "teacherId" d)
                               (dict_get_or_none "studentId" d))) /\
        (status = 200%Z ->
         exists d more,
           data = PDict d /\
           truthy (dict_get_or_none "teacherId" d) = true /\
           truthy (dict_get_or_none "studentId" d) = true /\
           calls <> [] /\
           body = ("channelId",
                   PStr (channel_id_of R (dict_get_or_none "teacherId" d)
                                         (dict_get_or_none "studentId" d)))
                  :: ("success", PBool true) :: more)
  end.
Proof.
  destruct request_json as [data | e].
  2:{ unfold create_stream_channel, create_channel_except.
      destruct (contains "already exists" (lower e)); reflexivity. }
  unfold create_stream_channel, sc_try.
  destruct (truthy data) eqn:Hdata.
  2:{ unfold create_channel_try. rewrite Hdata. cbn [negb sc_ret].
      exists 400%Z, [("error", PStr "Request body required")], [].
      rewrite app_nil_r. split; [reflexivity |].
      split; [now left |]. split; [now left | discriminate]. }
  assert (Hother :
    (forall d, data <> PDict d) ->
    exists status body calls,
      (let (h', r) := create_channel_try R S data h in
       match r with
       | Ret a => (h', Ret a)
       | Raise e => create_channel_except R (Some data) e h'
       end) = ((h ++ calls)%list, Ret (Json status body)) /\
      (status = 400 \/ status = 500 \/ status = 200)%Z /\
      (calls = [] \/
       exists d n,
         data = PDict d /\ (1 <= n <= 4)%nat /\
         calls = firstn n (channel_calls R
                             (dict_get_or_none "teacherId" d)
                             (dict_get_or_none "studentId" d))) /\
      (status = 200%Z ->
       exists d more,
         data = PDict d /\
         truthy (dict_get_or_none "teacherId" d) = true /\
         truthy (dict_get_or_none "studentId" d) = true /\
         calls <> [] /\
         body = ("channelId",
                 PStr (channel_id_of R (dict_get_or_none "teacherId" d)
                                       (dict_get_or_none "studentId" d)))
                :: ("success", PBool true) :: more)).
  { intros Hnot.
    exists 500%Z,
      [("error",
        PStr ("'" ++ type_name data ++ "' object has no attribute 'get'"))],
      [].
    rewrite app_nil_r.
    split; [| split; [now (right; left) | split; [now left | discriminate]]].
    unfold create_channel_try. rewrite Hdata. cbn [negb].
    unfold sc_bind at 1.
    assert (Hget : py_get data "teacherId" PNone
                   = Raise ("'" ++ type_name data
                            ++ "' object has no attribute 'get'")).
    { destruct data; try reflexivity. now destruct (Hnot d). }
    cbn [sc_lift]. rewrite Hget.
    unfold create_channel_except.
    now rewrite attribute_error_is_not_already_exists. }
  destruct data as [| b | z | nz text | str | l | d];
    try (apply Hother; discriminate).
  clear Hother.
  set (t := dict_get_or_none "teacherId" d).
  set (s := dict_get_or_none "studentId" d).
  destruct (truthy t) eqn:Ht.
  2:{ destruct (@create_channel_try_rejects R S d h (or_introl Ht)) as [m Hm].
      rewrite Hm. exists 400%Z, [("error", PStr m)], [].
      rewrite app_nil_r. split; [reflexivity |].
      split; [now left |]. split; [now left | discriminate]. }
  destruct (truthy s) eqn:Hs.
  2:{ destruct (@create_channel_try_rejects R S d h (or_intror Hs)) as [m Hm].
      rewrite Hm. exists 400%Z, [("error", PStr m)], [].
      rewrite app_nil_r. split; [reflexivity |].
      split; [now left |]. split; [now left | discriminate]. }
  rewrite (@create_channel_try_run R S d h Ht Hs). fold t s.
  destruct (run_calls_cases S (channel_calls R t s) (channel_created R t s) h)
    as [Hok | (n & e & Hn & Hrun & _)].
  - rewrite Hok. unfold channel_created.
    do 2 eexists. exists (channel_calls R t s).
    split; [reflexivity |]. split; [now (right; right) |].
    split.
    + right. exists d, 4%nat. repeat split; lia.
    + intros _. exists d, []. repeat split; try assumption. discriminate.
  - rewrite Hrun, create_channel_except_dict. fold t s.
    cbn [channel_calls length] in Hn.
    assert (Hprefix : firstn (n + 1) (channel_calls R t s) <> []).
    { replace (n + 1)%nat with (1 + n)%nat by lia. discriminate. }
    destruct (contains "already exists" (lower e)); unfold channel_existed.
    + do 2 eexists. exists (firstn (n + 1) (channel_calls R t s)).
      split; [reflexivity |]. split; [now (right; right) |].
      split.
      * right. exists d, (n + 1)%nat. repeat split; lia.
      * intros _. exists d, [("existed", PBool true)].
        repeat split; assumption.
    + do 2 eexists. exists (firstn (n + 1) (channel_calls R t s)).
      split; [reflexivity |]. split; [now (right; left) |].
      split.
      * right. exists d, (n + 1)%nat. repeat split; lia.
      * discriminate.
Qed.

Lemma dash_free_prefix_inj (a1 a2 r1 r2 : string) :
  count_char "-" a1 = 0%nat -> count_char "-" a2 = 0%nat ->
  (a1 ++ String "-" r1 = a2 ++ String "-" r2)%string ->
  a1 = a2 /\ r1 = r2.
Proof.
  revert a2. induction a1 as [| c a1 IH]; intros [| c2 a2] H1 H2 E;
    cbn [String.append count_char] in *.
  - injection E as ->. now split.
  - injection E as <- _. rewrite Ascii.eqb_refl in H2. discriminate.
  - injection E as -> _. rewrite Ascii.eqb_refl in H1. discriminate.
  - injection E as -> E.
    destruct (Ascii.eqb c2 "-"); [discriminate |].
    destruct (IH a2 H1 H2 E) as [-> ->]. now split.
Qed.

(** X23: the channel id determines the texts of both ids as long as the
    text of the teacher id holds no "-"; without that condition it does
    not: two different pairs of string ids share one channel id. *)
Theorem channel_id_injective (R : PyRuntime) :
  (forall t1 s1 t2 s2 : pyval,
     count_char "-" (py_str R t1) = 0%nat ->
     count_char "-" (py_str R t2) = 0%nat ->
     channel_id_of R t1 s1 = channel_id_of R t2 s2 ->
     py_str R t1 = py_str R t2 /\ py_str R s1 = py_str R s2) /\
  (exists t1 s1 t2 s2 : string,
     channel_id_of R (PStr t1) (PStr s1) = channel_id_of R (PStr t2) (PStr s2)
     /\ t1 <> t2 /\ s1 <> s2).
Proof.
  split.
  - intros t1 s1 t2 s2 H1 H2 E. unfold channel_id_of in E.
    cbn [String.append] in E.
    repeat match type of E with
           | String _ _ = String _ _ => injection E as E
           end.
    destruct (dash_free_prefix_inj _ _ _ _ H1 H2 E) as [Ht Hrest].
    split; [exact Ht |].
    repeat match type of Hrest with
           | String _ _ = String _ _ => injection Hrest as Hrest
           end.
    exact Hrest.
  - exists "a-student-b", "c", "a", "b-student-c".
    split; [reflexivity |]. split; discriminate.
Qed.

Lemma channel_id_injective_witness :
  count_char "-" (py_str example_runtime (PInt 9999)) = 0%nat /\
  count_char "-" (py_str example_runtime (PStr "9999")) = 0%nat /\
  channel_id_of example_runtime (PInt 9999) (PStr "7")
    = channel_id_of example_runtime (PStr "9999") (PInt 7) /\
  py_str example_runtime (PInt 9999) = py_str example_runtime (PStr "9999") /\
  py_str example_runtime (PStr "7") = py_str example_runtime (PInt 7).
Proof.
  split; [reflexivity |]. split; [reflexivity |]. split; [reflexivity |].
  apply (proj1 (channel_id_injective example_runtime)
           (PInt 9999) (PStr "7") (PStr "9999") (PInt 7));
    reflexivity.
Defined.

Local Close Scope string_scope.
